(** * The upload widget of staging/js/file-handler.js

    A shallow embedding of the class [AudioFileHandler] (file selection,
    upload, progress and result rendering) and of the page's event loop,
    followed by the properties the specification states about them.

    Layout: the JavaScript run-time notions the script relies on (strings,
    numbers and their conversions), the page state, a state-and-exception
    monad for the method bodies, the methods themselves, the event loop,
    and finally the theorems. *)

From Stdlib Require Import ZArith NArith QArith Qround.
From Stdlib Require Import String Ascii List Bool Lia.
From Stdlib Require Import Floats DecimalString.
Import ListNotations.

Local Open Scope string_scope.
Local Open Scope Z_scope.

(* ================================================================== *)
(** * Strings *)
(* ================================================================== *)

Module Str.

(** Characters that cannot be written inside a string literal here. *)
Definition dquote : string := String (ascii_of_nat 34) EmptyString.
Definition newline : string := String (ascii_of_nat 10) EmptyString.

Fixpoint replicate (n : nat) (c : string) : string :=
  match n with
  | O => EmptyString
  | S n' => c ++ replicate n' c
  end.

(** [indent n]: [n] blanks, the indentation inside the template literals. *)
Definition indent (n : nat) : string := replicate n " ".

(** [Includes t s]: the string [s] occurs in [t], character for
    character (JavaScript's [t.includes(s)]). *)
Definition Includes (t s : string) : Prop :=
  exists before after, t = before ++ s ++ after.

(** The executable version of [Includes]. *)
Fixpoint includesb (t s : string) : bool :=
  if prefix s t then true
  else match t with
       | EmptyString => false
       | String _ t' => includesb t' s
       end.

(** [t.startsWith(s)]. *)
Definition startsWith (t s : string) : bool := prefix s t.

End Str.

(* ================================================================== *)
(** * Numbers

    A JavaScript Number is an IEEE 754 binary64 value, which is what
    Rocq's primitive [float] is.  The conversions below follow
    ECMA-262: [Number::toString] (radix 10), [Math.round],
    [Number.prototype.toFixed] and [parseFloat]. *)
(* ================================================================== *)

Module Num.

Definition number := float.

(** Decimal digits of a natural number. *)
Definition digits (n : Z) : string :=
  NilZero.string_of_uint (N.to_uint (Z.to_N n)).

(** An integer of magnitude below 2^63 as a Number (exact below 2^53). *)
Definition of_Z (z : Z) : number :=
  let a := PrimFloat.of_uint63 (Uint63.of_Z (Z.abs z)) in
  if z <? 0 then PrimFloat.opp a else a.

(** ** Number::toString

    For a finite non-zero [x = m * 2^e] the standard asks for the
    shortest digit string [s] (of [k] digits) and the exponent [n] with
    [s * 10^(n-k)] rounding to [x], the closest to [x] among those.
    A decimal rounds to [x] when it lies between the midpoints towards
    the two neighbours of [x], the midpoints themselves included when
    [m] is even (round to nearest, ties to even). All quantities are
    kept as integers scaled by [2^(e-2)]. *)

Section Shortest.
Variables (m e : Z).

Let sh : Z := e - 2.
Let V : Z := 4 * m.
Let HI : Z := 4 * m + 2.
Let LO : Z :=
  if (m =? 2 ^ 52) && (-1074 <? e) then 4 * m - 1 else 4 * m - 2.

(** Compare the decimal [c * 10^p] with the binary [X * 2^sh]. *)
Definition cmp_dec_bin (c p X : Z) : comparison :=
  (c * 10 ^ Z.max p 0 * 2 ^ Z.max (- sh) 0
   ?= X * 2 ^ Z.max sh 0 * 10 ^ Z.max (- p) 0).

Definition rounds_to_x (c p : Z) : bool :=
  match cmp_dec_bin c p LO, cmp_dec_bin c p HI with
  | Gt, Lt => true
  | Eq, _ | _, Eq => Z.even m
  | _, _ => false
  end.

(** The least [n] with [x < 10^n], searched upwards from [from]. *)
Fixpoint magnitude (fuel : nat) (from : Z) : Z :=
  match fuel with
  | O => from
  | S fuel' =>
      match cmp_dec_bin 1 from V with
      | Gt => from
      | _ => magnitude fuel' (from + 1)
      end
  end.

Definition floor_scaled (p : Z) : Z :=
  (V * 2 ^ Z.max sh 0 * 10 ^ Z.max (- p) 0)
  / (2 ^ Z.max (- sh) 0 * 10 ^ Z.max p 0).

(** Try [k], [k+1], ... digits; 17 always suffice for a binary64. *)
Fixpoint shortest (fuel : nat) (n0 k : Z) : Z * Z :=
  match fuel with
  | O => (0, n0)
  | S fuel' =>
      let p := n0 - k in
      let lo := floor_scaled p in
      let hi := lo + 1 in
      let pick s := if s =? 10 ^ k then (1, n0 + 1) else (s, n0) in
      match rounds_to_x lo p, rounds_to_x hi p with
      | true, true =>
          match cmp_dec_bin (2 * lo + 1) p (2 * V) with
          | Gt => pick lo
          | Lt => pick hi
          | Eq => if Z.even lo then pick lo else pick hi
          end
      | true, false => pick lo
      | false, true => pick hi
      | false, false => shortest fuel' n0 (k + 1)
      end
  end.

(** [2^(log2 m + e) <= x], and [30102 / 100000 < log10 2], so the
    search for the magnitude may start just below that estimate. *)
Definition magnitude_from : Z := (Z.log2 m + e) * 30102 / 100000 - 1.

Definition shortest_decimal : Z * Z :=
  shortest 17 (magnitude 16 magnitude_from) 1.
End Shortest.

(** The layout of the digits [s] with decimal exponent [n]. *)
Definition layout (s n : Z) : string :=
  let ds := digits s in
  let k := Z.of_nat (String.length ds) in
  if (k <=? n) && (n <=? 21) then
    ds ++ Str.replicate (Z.to_nat (n - k)) "0"
  else if (0 <? n) && (n <=? 21) then
    substring 0 (Z.to_nat n) ds ++ "."
      ++ substring (Z.to_nat n) (Z.to_nat (k - n)) ds
  else if (-6 <? n) && (n <=? 0) then
    "0." ++ Str.replicate (Z.to_nat (- n)) "0" ++ ds
  else
    let ex := n - 1 in
    let sign := if ex <? 0 then "-" else "+" in
    if k =? 1 then ds ++ "e" ++ sign ++ digits (Z.abs ex)
    else substring 0 1 ds ++ "."
           ++ substring 1 (Z.to_nat (k - 1)) ds
           ++ "e" ++ sign ++ digits (Z.abs ex).

Definition toString (x : number) : string :=
  match Prim2SF x with
  | S754_nan => "NaN"
  | S754_zero _ => "0"
  | S754_infinity s => if s then "-Infinity" else "Infinity"
  | S754_finite s m e =>
      let '(d, n) := shortest_decimal (Zpos m) e in
      (if s then "-" else "") ++ layout d n
  end.

(** ** Math.round: the closest integer, ties towards +infinity. *)
Definition round (x : number) : number :=
  match Prim2SF x with
  | S754_finite s m e =>
      if 0 <=? e then x
      else
        let v := if s then - Zpos m else Zpos m in
        let r := (2 * v + 2 ^ (- e)) / 2 ^ (1 - e) in
        if r =? 0 then (if s then PrimFloat.opp 0%float else 0%float)
        else of_Z r
  | _ => x
  end.

(** ** toFixed on an exactly known, non-negative value below 10^21

    [x.toFixed(f)] takes the integer [n] with [n / 10^f - x] closest to
    zero, the larger one on a tie, and prints it with [f] decimals. *)
Definition nearest_scaled (x : Q) (f : nat) : Z :=
  Qfloor (x * inject_Z (10 ^ Z.of_nat f) + (1 # 2))%Q.

Definition fixed_layout (n : Z) (f : nat) : string :=
  let ds := digits n in
  if Nat.eqb f 0 then ds
  else
    let k := String.length ds in
    let ds := if Nat.leb k f then Str.replicate (f + 1 - k) "0" ++ ds
              else ds in
    let k := String.length ds in
    substring 0 (k - f) ds ++ "." ++ substring (k - f) f ds.

Definition toFixed (x : Q) (f : nat) : string :=
  fixed_layout (nearest_scaled x f) f.

(** ** parseFloat on an optionally fractional decimal numeral

    The Number closest to the decimal; the quotient of two exactly
    represented integers is that Number, division being correctly
    rounded. *)
Fixpoint digits_value (acc : Z) (s : string) : option Z :=
  match s with
  | EmptyString => Some acc
  | String c s' =>
      let d := Z.of_nat (nat_of_ascii c) - 48 in
      if (0 <=? d) && (d <=? 9) then digits_value (10 * acc + d) s'
      else None
  end.

Definition parseFloat (s : string) : number :=
  let '(ip, fp) :=
    match index 0 "." s with
    | Some i => (substring 0 i s,
                 substring (i + 1) (String.length s - i - 1) s)
    | None => (s, EmptyString)
    end in
  match digits_value 0 (ip ++ fp) with
  | Some n =>
      PrimFloat.div (of_Z n) (of_Z (10 ^ Z.of_nat (String.length fp)))
  | None => PrimFloat.nan
  end.

End Num.

(* ================================================================== *)
(** * Values exchanged with the server *)
(* ================================================================== *)

Module Js.

(** The primitive values a field of the response body can hold.  Arrays
    and nested objects, which the interface of the transcription
    service does not use, are left out. *)
Inductive prim : Type :=
| Undefined
| Null
| Bool (b : bool)
| Number (x : Num.number)
| Str (s : string).

(** ToString, as applied by a template literal's substitution. *)
Definition ToString (v : prim) : string :=
  match v with
  | Undefined => "undefined"
  | Null => "null"
  | Bool true => "true"
  | Bool false => "false"
  | Number x => Num.toString x
  | Str s => s
  end.

(** ToBoolean, as applied by [!] and [if]. *)
Definition ToBoolean (v : prim) : bool :=
  match v with
  | Undefined | Null => false
  | Bool b => b
  | Number x => negb (PrimFloat.eqb x 0%float) && PrimFloat.eqb x x
  | Str s => negb (String.eqb s EmptyString)
  end.

(** An exception value; the script reads nothing but its message. *)
Record Error : Type := { message : string }.

End Js.

(** The selected file: name, declared media type and size in bytes (an
    unsigned integer in the File interface). *)
Module File.
Record t : Type := { name : string; type : string; size : N }.
End File.

(** The object the script calls [result]: what it reads are the four
    properties below, [Js.Undefined] standing for an absent one. *)
Record Result : Type := {
  success : Js.prim;
  text : Js.prim;
  processing_time : Js.prim;
  error : Js.prim }.

(** What [response.json()] resolves to: [null], or a value whose
    properties can be read. *)
Inductive Parsed : Type :=
| JsonNull
| JsonObject (result : Result).

Inductive Body : Type :=
| InvalidJson (why : string)      (* response.json() rejects *)
| Json (v : Parsed).

Record Response : Type := {
  status : N;
  statusText : string;
  body : Body }.

(** [response.ok]: the status is in the range 200-299. *)
Definition ok (r : Response) : bool :=
  ((200 <=? status r) && (status r <=? 299))%N.

(** How a [fetch] promise settles. *)
Inductive Fetched : Type :=
| Rejected (why : string)         (* network failure: a TypeError *)
| Resolved (r : Response).

Record ProgressEvent : Type := {
  loaded : Num.number;
  total : Num.number }.

(** Everything the environment contributes to one run of [handleUpload]:
    the progress notifications handed to the [onUploadProgress] option
    (the standard [fetch] ignores that option and delivers none), the
    settlement of the request, and the wall-clock strings read by
    [new Date().toLocaleTimeString()] in the [try] and in the [catch]
    block. *)
Record UploadWorld : Type := {
  notifications : list ProgressEvent;
  fetched : Fetched;
  clock_try : string;
  clock_catch : string }.

(** A request handed to [fetch]. *)
Record Request : Type := {
  url : string;
  method : string;
  accept : option string;
  formData : list (string * File.t) }.

(* ================================================================== *)
(** * The page *)
(* ================================================================== *)

(** The properties of the seven elements the constructor looks up, as far
    as the script reads or writes them, and the two effect logs.
    [resultsBox_innerHTML] is the markup last assigned to the property;
    [progressFill_width] is the width declared in the style of the
    progress bar, the last value assigned that the style accepted. *)
Record Page : Type := {
  fileInput_files : list File.t;
  fileInput_disabled : bool;
  uploadButton_disabled : bool;
  statusIndicator_textContent : string;
  resultsBox_innerHTML : string;
  progressSection_display : string;
  progressFill_width : string;
  progressText_textContent : string;
  network : list Request;
  console : list (string * string) }.

Definition set_fileInput_files v p :=
  {| fileInput_files := v; fileInput_disabled := fileInput_disabled p;
     uploadButton_disabled := uploadButton_disabled p;
     statusIndicator_textContent := statusIndicator_textContent p;
     resultsBox_innerHTML := resultsBox_innerHTML p;
     progressSection_display := progressSection_display p;
     progressFill_width := progressFill_width p;
     progressText_textContent := progressText_textContent p;
     network := network p; console := console p |}.

Definition set_fileInput_disabled v p :=
  {| fileInput_files := fileInput_files p; fileInput_disabled := v;
     uploadButton_disabled := uploadButton_disabled p;
     statusIndicator_textContent := statusIndicator_textContent p;
     resultsBox_innerHTML := resultsBox_innerHTML p;
     progressSection_display := progressSection_display p;
     progressFill_width := progressFill_width p;
     progressText_textContent := progressText_textContent p;
     network := network p; console := console p |}.

Definition set_uploadButton_disabled v p :=
  {| fileInput_files := fileInput_files p;
     fileInput_disabled := fileInput_disabled p;
     uploadButton_disabled := v;
     statusIndicator_textContent := statusIndicator_textContent p;
     resultsBox_innerHTML := resultsBox_innerHTML p;
     progressSection_display := progressSection_display p;
     progressFill_width := progressFill_width p;
     progressText_textContent := progressText_textContent p;
     network := network p; console := console p |}.

Definition set_statusIndicator_textContent v p :=
  {| fileInput_files := fileInput_files p;
     fileInput_disabled := fileInput_disabled p;
     uploadButton_disabled := uploadButton_disabled p;
     statusIndicator_textContent := v;
     resultsBox_innerHTML := resultsBox_innerHTML p;
     progressSection_display := progressSection_display p;
     progressFill_width := progressFill_width p;
     progressText_textContent := progressText_textContent p;
     network := network p; console := console p |}.

Definition set_resultsBox_innerHTML v p :=
  {| fileInput_files := fileInput_files p;
     fileInput_disabled := fileInput_disabled p;
     uploadButton_disabled := uploadButton_disabled p;
     statusIndicator_textContent := statusIndicator_textContent p;
     resultsBox_innerHTML := v;
     progressSection_display := progressSection_display p;
     progressFill_width := progressFill_width p;
     progressText_textContent := progressText_textContent p;
     network := network p; console := console p |}.

Definition set_progressSection_display v p :=
  {| fileInput_files := fileInput_files p;
     fileInput_disabled := fileInput_disabled p;
     uploadButton_disabled := uploadButton_disabled p;
     statusIndicator_textContent := statusIndicator_textContent p;
     resultsBox_innerHTML := resultsBox_innerHTML p;
     progressSection_display := v;
     progressFill_width := progressFill_width p;
     progressText_textContent := progressText_textContent p;
     network := network p; console := console p |}.

Definition set_progressFill_width v p :=
  {| fileInput_files := fileInput_files p;
     fileInput_disabled := fileInput_disabled p;
     uploadButton_disabled := uploadButton_disabled p;
     statusIndicator_textContent := statusIndicator_textContent p;
     resultsBox_innerHTML := resultsBox_innerHTML p;
     progressSection_display := progressSection_display p;
     progressFill_width := v;
     progressText_textContent := progressText_textContent p;
     network := network p; console := console p |}.

Definition set_progressText_textContent v p :=
  {| fileInput_files := fileInput_files p;
     fileInput_disabled := fileInput_disabled p;
     uploadButton_disabled := uploadButton_disabled p;
     statusIndicator_textContent := statusIndicator_textContent p;
     resultsBox_innerHTML := resultsBox_innerHTML p;
     progressSection_display := progressSection_display p;
     progressFill_width := progressFill_width p;
     progressText_textContent := v;
     network := network p; console := console p |}.

Definition set_network v p :=
  {| fileInput_files := fileInput_files p;
     fileInput_disabled := fileInput_disabled p;
     uploadButton_disabled := uploadButton_disabled p;
     statusIndicator_textContent := statusIndicator_textContent p;
     resultsBox_innerHTML := resultsBox_innerHTML p;
     progressSection_display := progressSection_display p;
     progressFill_width := progressFill_width p;
     progressText_textContent := progressText_textContent p;
     network := v; console := console p |}.

Definition set_console v p :=
  {| fileInput_files := fileInput_files p;
     fileInput_disabled := fileInput_disabled p;
     uploadButton_disabled := uploadButton_disabled p;
     statusIndicator_textContent := statusIndicator_textContent p;
     resultsBox_innerHTML := resultsBox_innerHTML p;
     progressSection_display := progressSection_display p;
     progressFill_width := progressFill_width p;
     progressText_textContent := progressText_textContent p;
     network := network p; console := v |}.

(* ================================================================== *)
(** * Method bodies: state and exceptions *)
(* ================================================================== *)

(** A statement runs on a page and either completes normally with a
    value or throws. *)
Inductive Completion (A : Type) : Type :=
| Normal (a : A)
| Throw (e : Js.Error).
Arguments Normal {A} a.
Arguments Throw {A} e.

Definition M (A : Type) : Type := Page -> Page * Completion A.

Definition ret {A} (a : A) : M A := fun p => (p, Normal a).

Definition bind {A B} (m : M A) (k : A -> M B) : M B :=
  fun p =>
    match m p with
    | (p', Normal a) => k a p'
    | (p', Throw e) => (p', Throw e)
    end.

Definition throw {A} (e : Js.Error) : M A := fun p => (p, Throw e).

Definition gets {A} (f : Page -> A) : M A := fun p => (p, Normal (f p)).

Definition modify (f : Page -> Page) : M unit := fun p => (f p, Normal tt).

(** [try { body } catch (e) { handler e }]. *)
Definition try_catch {A} (body : M A) (handler : Js.Error -> M A) : M A :=
  fun p =>
    match body p with
    | (p', Normal a) => (p', Normal a)
    | (p', Throw e) => handler e p'
    end.

(** [try { body } finally { finalizer }]: the finalizer runs whichever
    way the body completes; the body's completion stands unless the
    finalizer itself throws. *)
Definition try_finally {A} (body : M A) (finalizer : M unit) : M A :=
  fun p =>
    match body p with
    | (p', c) =>
        match finalizer p' with
        | (p'', Normal _) => (p'', c)
        | (p'', Throw e) => (p'', Throw e)
        end
    end.

Declare Scope js_scope.
Delimit Scope js_scope with js.
Notation "x <- m ;; k" := (bind m (fun x => k))
  (at level 61, m at next level, right associativity) : js_scope.
Notation "m ;; k" := (bind m (fun _ => k))
  (at level 61, right associativity) : js_scope.
Local Open Scope js_scope.

(** The page a statement leaves behind. *)
Definition exec {A} (m : M A) (p : Page) : Page := fst (m p).

(** How a statement completes. *)
Definition outcome {A} (m : M A) (p : Page) : Completion A := snd (m p).

Fixpoint forEach {A} (l : list A) (f : A -> M unit) : M unit :=
  match l with
  | [] => ret tt
  | a :: l' => f a ;; forEach l' f
  end.

(** [fetch(request)]: the synchronous part, which sends the request. *)
Definition fetch (r : Request) : M unit :=
  modify (fun p => set_network (network p ++ [r]) p).

(** [await] on the promise [fetch] returned. *)
Definition await (w : Fetched) : M Response :=
  match w with
  | Rejected why => throw {| Js.message := why |}
  | Resolved r => ret r
  end.

(** [await response.json()]. *)
Definition json (r : Response) : M Parsed :=
  match body r with
  | InvalidJson why => throw {| Js.message := why |}
  | Json v => ret v
  end.

Definition console_error (label : string) (e : Js.Error) : M unit :=
  modify (fun p => set_console (console p ++ [(label, Js.message e)]) p).

(* ================================================================== *)
(** * class AudioFileHandler *)
(* ================================================================== *)

Section AudioFileHandler.

(** Reading [innerHTML] yields the serialisation of the tree the
    browser built from the markup assigned before, which need not be
    that markup letter for letter; [reparse] is that round trip. *)
Variable reparse : string -> string.

(** ** Configuration (constructor) *)
Definition apiEndpoint : string := "/api/v1/audio/transcribe".
Definition maxFileSize : N := 50 * 1024 * 1024.

(** ** checkAPIConnection *)

Definition health_request : Request :=
  {| url := "/api/v1/health"; method := "GET"; accept := None;
     formData := [] |}.

(** [checkAPIConnection] is asynchronous: the constructor runs it up to
    its [await], which sends the request; [checkAPIConnection_settle] is
    what runs once the request has settled. *)
Definition checkAPIConnection_settle (w : Fetched) : M unit :=
  try_catch
    (response <- await w ;;
     if ok response then
       modify (set_statusIndicator_textContent
                 "Ready to process audio files") ;;
       modify (set_fileInput_disabled false)
     else
       throw {| Js.message := "API health check failed" |})
    (fun error =>
       modify (set_statusIndicator_textContent
                 "Error: Cannot connect to transcription service") ;;
       modify (set_fileInput_disabled true) ;;
       console_error "API Connection Error:" error).

Definition checkAPIConnection (w : Fetched) : M unit :=
  try_catch
    (response <- (fetch health_request ;; await w) ;;
     if ok response then
       modify (set_statusIndicator_textContent
                 "Ready to process audio files") ;;
       modify (set_fileInput_disabled false)
     else
       throw {| Js.message := "API health check failed" |})
    (fun error =>
       modify (set_statusIndicator_textContent
                 "Error: Cannot connect to transcription service") ;;
       modify (set_fileInput_disabled true) ;;
       console_error "API Connection Error:" error).

(** ** handleFileSelection *)

(** [file.size / 1024 / 1024]: the size is an integer and the divisors
    are powers of two, so the quotients are exact for every size below
    2^53, far above the sizes that reach this expression. *)
Definition megabytes (size : N) : Q :=
  (inject_Z (Z.of_N size) / inject_Z 1024 / inject_Z 1024)%Q.

Definition handleFileSelection : M unit :=
  files <- gets fileInput_files ;;
  match files with
  | [] => ret tt
  | file :: _ =>
      if negb (String.eqb (File.type file) "audio/wav") then
        modify (set_statusIndicator_textContent
                  "Error: Please select a WAV file") ;;
        modify (set_uploadButton_disabled true)
      else if (maxFileSize <? File.size file)%N then
        modify (set_statusIndicator_textContent
                  "Error: File size exceeds 50MB limit") ;;
        modify (set_uploadButton_disabled true)
      else
        modify (set_uploadButton_disabled false) ;;
        modify (set_statusIndicator_textContent
                  ("Selected: " ++ File.name file ++ " ("
                   ++ Num.toFixed (megabytes (File.size file)) 2
                   ++ "MB)"))
  end.

(** ** updateProgress *)

(** An assignment to [style.width] is parsed as a CSS width and dropped
    when it is not one. Of the texts [`${percent}%`] the style accepts
    the percentages that are not negative: [Number::toString] prints a
    finite Number that is not negative as a numeral of CSS, a negative
    one with a minus sign, and the others as NaN and Infinity. *)
Definition width_accepts (percent : Num.number) : bool :=
  PrimFloat.leb 0%float percent && PrimFloat.ltb percent PrimFloat.infinity.

(** [this.progressFill.style.width = `${percent}%`]. *)
Definition style_width (percent : Num.number) (p : Page) : Page :=
  if width_accepts percent then
    set_progressFill_width (Num.toString percent ++ "%") p
  else p.

Definition updateProgress (percent : Num.number) : M unit :=
  modify (style_width percent) ;;
  modify (set_progressText_textContent
            ("Uploading: " ++ Num.toString (Num.round percent) ++ "%")).

(** The arrow function passed as [onUploadProgress]. *)
Definition percentComplete (progressEvent : ProgressEvent) : Num.number :=
  (loaded progressEvent / total progressEvent * 100)%float.

Definition onUploadProgress (progressEvent : ProgressEvent) : M unit :=
  updateProgress (percentComplete progressEvent).

(** ** displayResults *)

Definition error_entry (timestamp err : string) : string :=
  "<div class=" ++ Str.dquote ++ "transcription-result error"
    ++ Str.dquote ++ ">" ++ Str.newline
    ++ Str.indent 20 ++ "<p><strong>Error at " ++ timestamp
    ++ ":</strong></p>" ++ Str.newline
    ++ Str.indent 20 ++ "<p>" ++ err ++ "</p>" ++ Str.newline
    ++ Str.indent 16 ++ "</div>".

Definition result_entry (timestamp txt time fname : string) : string :=
  "<div class=" ++ Str.dquote ++ "transcription-result"
    ++ Str.dquote ++ ">" ++ Str.newline
    ++ Str.indent 16 ++ "<p><strong>Transcription Result (" ++ timestamp
    ++ "):</strong></p>" ++ Str.newline
    ++ Str.indent 16 ++ "<p>" ++ txt ++ "</p>" ++ Str.newline
    ++ Str.indent 16 ++ "<p><strong>Processing Time:</strong> " ++ time
    ++ "s</p>" ++ Str.newline
    ++ Str.indent 16 ++ "<p><strong>File:</strong> " ++ fname ++ "</p>"
    ++ Str.newline
    ++ Str.indent 12 ++ "</div>".

(** Reading a property of [null] or [undefined] throws a TypeError
    (the wording of the message is that of V8). *)
Definition properties (v : Parsed) : M Result :=
  match v with
  | JsonNull =>
      throw {| Js.message :=
                "Cannot read properties of null (reading 'success')" |}
  | JsonObject r => ret r
  end.

Definition first_file_name : M string :=
  files <- gets fileInput_files ;;
  match files with
  | [] =>
      throw {| Js.message :=
                "Cannot read properties of undefined (reading 'name')" |}
  | file :: _ => ret (File.name file)
  end.

(** [timestamp] is the value of [new Date().toLocaleTimeString()]. *)
Definition displayResults (timestamp : string) (result : Parsed) : M unit :=
  r <- properties result ;;
  if negb (Js.ToBoolean (success r)) then
    old <- gets (fun p => reparse (resultsBox_innerHTML p)) ;;
    modify (set_resultsBox_innerHTML
              (Str.newline ++ Str.indent 16
               ++ error_entry timestamp (Js.ToString (error r))
               ++ Str.newline ++ Str.indent 16 ++ old
               ++ Str.newline ++ Str.indent 12))
  else
    fname <- first_file_name ;;
    old <- gets (fun p => reparse (resultsBox_innerHTML p)) ;;
    modify (set_resultsBox_innerHTML
              (Str.newline ++ Str.indent 12
               ++ result_entry timestamp (Js.ToString (text r))
                    (Js.ToString (processing_time r)) fname
               ++ Str.newline ++ Str.indent 12 ++ old
               ++ Str.newline ++ Str.indent 8)) ;;
    modify (set_statusIndicator_textContent "Transcription complete").

(** ** handleUpload *)

Definition upload_request (file : File.t) : Request :=
  {| url := apiEndpoint; method := "POST";
     accept := Some "application/json";
     formData := [("audio", file)] |}.

Definition upload_failed (response : Response) : Js.Error :=
  {| Js.message := "Upload failed: "
                   ++ Num.digits (Z.of_N (status response)) ++ " "
                   ++ statusText response |}.

(** The object literal built in the [catch] block. *)
Definition failure (error : Js.Error) : Parsed :=
  JsonObject {| success := Js.Bool false;
                text := Js.Undefined;
                processing_time := Js.Undefined;
                error := Js.Str (Js.message error) |}.

Definition handleUpload (w : UploadWorld) : M unit :=
  files <- gets fileInput_files ;;
  match files with
  | [] => ret tt
  | file :: _ =>
      modify (set_progressSection_display "block") ;;
      modify (set_uploadButton_disabled true) ;;
      modify (set_fileInput_disabled true) ;;
      modify (set_statusIndicator_textContent
                "Uploading and processing...") ;;
      try_finally
        (try_catch
           (response <- (fetch (upload_request file) ;;
                         forEach (notifications w) onUploadProgress ;;
                         await (fetched w)) ;;
            (if negb (ok response) then throw (upload_failed response)
             else ret tt) ;;
            result <- json response ;;
            displayResults (clock_try w) result)
           (fun error =>
              console_error "Upload error:" error ;;
              modify (set_statusIndicator_textContent
                        ("Error: " ++ Js.message error)) ;;
              displayResults (clock_catch w) (failure error)))
        (modify (set_progressSection_display "none") ;;
         modify (set_uploadButton_disabled false) ;;
         modify (set_fileInput_disabled false) ;;
         modify (set_fileInput_files []))
  end.

(** The same method cut at its first [await]: what runs when the
    button is clicked, and what runs once the request has settled.
    [handleUpload_begin] tells whether a request was sent. Between the
    first [await] and the second, on [response.json()], the method
    writes nothing, so what follows the first runs in one turn. *)
Definition handleUpload_begin : M bool :=
  files <- gets fileInput_files ;;
  match files with
  | [] => ret false
  | file :: _ =>
      modify (set_progressSection_display "block") ;;
      modify (set_uploadButton_disabled true) ;;
      modify (set_fileInput_disabled true) ;;
      modify (set_statusIndicator_textContent
                "Uploading and processing...") ;;
      fetch (upload_request file) ;;
      ret true
  end.

Definition handleUpload_settle (w : UploadWorld) : M unit :=
  try_finally
    (try_catch
       (response <- (forEach (notifications w) onUploadProgress ;;
                     await (fetched w)) ;;
        (if negb (ok response) then throw (upload_failed response)
         else ret tt) ;;
        result <- json response ;;
        displayResults (clock_try w) result)
       (fun error =>
          console_error "Upload error:" error ;;
          modify (set_statusIndicator_textContent
                    ("Error: " ++ Js.message error)) ;;
          displayResults (clock_catch w) (failure error)))
    (modify (set_progressSection_display "none") ;;
     modify (set_uploadButton_disabled false) ;;
     modify (set_fileInput_disabled false) ;;
     modify (set_fileInput_files [])).

(** ** formatFileSize

    [Math.floor(Math.log(bytes) / Math.log(k))] is taken to be the
    integer part of the logarithm of [bytes] in base 1024, that is
    [log2 bytes / 10]. The quotient of the two binary64 logarithms has
    that integer part for the sizes below 2^40 and for the whole
    multiples [n * 1024^i] with [n < 1024], which are the sizes the
    properties below speak of; a few bytes below 2^50 the quotient is
    rounded up to 5 and the script's index is one more than this one.
    [bytes / Math.pow(k, i)] is exact, a division of an integer by a
    power of two. *)
Definition sizes : list string := ["Bytes"; "KB"; "MB"; "GB"].

Definition formatFileSize (bytes : N) : string :=
  if (bytes =? 0)%N then "0 Bytes"
  else
    let k := 1024 in
    let i := Z.log2 (Z.of_N bytes) / Z.log2 k in
    Num.toString
      (Num.parseFloat
         (Num.toFixed (inject_Z (Z.of_N bytes) / inject_Z (k ^ i))%Q 2))
      ++ " " ++ nth (Z.to_nat i) sizes "undefined".

(** ** window.onerror *)
Definition window_onerror (msg : string) : M bool :=
  console_error "Global error:" {| Js.message := msg |} ;;
  modify (set_statusIndicator_textContent
            "An unexpected error occurred. Please refresh the page.") ;;
  ret false.

(* ---------------------------------------------------------------- *)
(** ** The event loop

    Handlers run one at a time.  Besides the page, a session records
    which promises are still pending: the health request sent by the
    constructor and the upload requests sent by [handleUpload]. *)

Record Session : Type := {
  page : Page;
  health_pending : bool;
  uploads_in_flight : nat }.

Inductive Event : Type :=
| HealthSettled (w : Fetched)        (* the health request settles *)
| Change (files : list File.t)       (* the user picks files, or none *)
| Click                              (* the user clicks the button *)
| UploadSettled (w : UploadWorld)    (* an upload request settles *)
| GlobalError (msg : string).        (* an uncaught error on the page *)

(** Modelled from the spec: the page markup, which fixes the state of
    the elements when the script starts, is not among the sources.
    The connectivity check is said (4.2) to move the widget out of a
    disabled initial state, so the file input starts disabled; a freshly
    loaded page has no file selected. *)
Definition fresh (markup : Page) : Prop :=
  fileInput_files markup = [] /\ fileInput_disabled markup = true.

(** [new AudioFileHandler()]: the listeners are registered and the
    health request is sent. *)
Definition constructor (markup : Page) : Session :=
  {| page := exec (fetch health_request) markup;
     health_pending := true;
     uploads_in_flight := 0 |}.

(** One turn of the event loop; [None] when the event cannot occur:
    a disabled control dispatches nothing, and only a pending promise
    settles. *)
Definition step (s : Session) (ev : Event) : option Session :=
  match ev with
  | HealthSettled w =>
      if health_pending s then
        Some {| page := exec (checkAPIConnection_settle w) (page s);
                health_pending := false;
                uploads_in_flight := uploads_in_flight s |}
      else None
  | Change files =>
      if fileInput_disabled (page s) then None
      else
        Some {| page := exec handleFileSelection
                          (set_fileInput_files files (page s));
                health_pending := health_pending s;
                uploads_in_flight := uploads_in_flight s |}
  | Click =>
      if uploadButton_disabled (page s) then None
      else
        match handleUpload_begin (page s) with
        | (p, Normal true) =>
            Some {| page := p;
                    health_pending := health_pending s;
                    uploads_in_flight := S (uploads_in_flight s) |}
        | (p, _) =>
            Some {| page := p;
                    health_pending := health_pending s;
                    uploads_in_flight := uploads_in_flight s |}
        end
  | UploadSettled w =>
      match uploads_in_flight s with
      | O => None
      | S n =>
          Some {| page := exec (handleUpload_settle w) (page s);
                  health_pending := health_pending s;
                  uploads_in_flight := n |}
      end
  | GlobalError msg =>
      Some {| page := exec (window_onerror msg) (page s);
              health_pending := health_pending s;
              uploads_in_flight := uploads_in_flight s |}
  end.

Fixpoint run (s : Session) (evs : list Event) : option Session :=
  match evs with
  | [] => Some s
  | ev :: evs' =>
      match step s ev with
      | Some s' => run s' evs'
      | None => None
      end
  end.

Inductive reachable : Session -> Prop :=
| reachable_load markup :
    fresh markup -> reachable (constructor markup)
| reachable_step s ev s' :
    reachable s -> step s ev = Some s' -> reachable s'.

(** The accepted selection: a WAV file of at most 50MB. *)
Definition valid (file : File.t) : bool :=
  String.eqb (File.type file) "audio/wav"
  && (File.size file <=? maxFileSize)%N.

End AudioFileHandler.

(* ================================================================== *)
(** * Notions used to state the properties *)
(* ================================================================== *)

(** The page after the progress notifications of an upload. *)
Definition deliver (evs : list ProgressEvent) (p : Page) : Page :=
  exec (forEach evs onUploadProgress) p.


(** The connectivity check fails: the request throws, or the response is
    not [ok]. *)
Definition health_fails (w : Fetched) : Prop :=
  match w with
  | Rejected _ => True
  | Resolved response => ok response = false
  end.

(** The same world with another settlement of the request. *)
Definition with_fetched (f : Fetched) (w : UploadWorld) : UploadWorld :=
  {| notifications := notifications w; fetched := f;
     clock_try := clock_try w; clock_catch := clock_catch w |}.

(** The integer nearest to a rational, the larger one on a tie: the
    [round] of the specification's [round(100*l/t)]. *)
Definition nearest_integer (q : Q) : Z := Qfloor (q + (1 # 2))%Q.

(** The prefix of a successful entry and of an error entry in the markup
    assigned to the results box, and what follows the entry. *)
Definition prepended (lead : nat) (entry old : string) : string :=
  Str.newline ++ Str.indent lead ++ entry
    ++ Str.newline ++ Str.indent lead ++ old
    ++ Str.newline ++ Str.indent (lead - 4).

(** The page [handleUpload] has built when it reaches its [await]. *)
Definition begun (file : File.t) (p : Page) : Page :=
  exec (fetch (upload_request file))
    (set_statusIndicator_textContent "Uploading and processing..."
       (set_fileInput_disabled true
          (set_uploadButton_disabled true
             (set_progressSection_display "block" p)))).

(** What the [finally] block of [handleUpload] does to a page. *)
Definition released (p : Page) : Page :=
  set_fileInput_files []
    (set_fileInput_disabled false
       (set_uploadButton_disabled false
          (set_progressSection_display "none" p))).

(** A statement that leaves the progress bar and the progress text as
    they are. *)
Definition keeps_progress {A} (m : M A) : Prop :=
  forall p,
    progressText_textContent (exec m p) = progressText_textContent p
    /\ progressFill_width (exec m p) = progressFill_width p.

(** The same world without progress notifications. *)
Definition quiet (w : UploadWorld) : UploadWorld :=
  {| notifications := []; fetched := fetched w;
     clock_try := clock_try w; clock_catch := clock_catch w |}.

(** The widget is idle: no file is selected, or the selected file is
    not accepted. *)
Definition idle (s : Session) : Prop :=
  match fileInput_files (page s) with
  | [] => True
  | file :: _ => valid file = false
  end.

(** What holds of every session the event loop can reach: until the
    health request settles nothing is selected or in flight and the file
    input is disabled; at most one upload is in flight, and while it is,
    both controls are disabled and the file is still selected; and the
    button is disabled whenever the selected file is not accepted. *)
Definition consistent (s : Session) : Prop :=
  (health_pending s = true ->
   fileInput_files (page s) = [] /\ uploads_in_flight s = 0%nat
   /\ fileInput_disabled (page s) = true)
  /\ (uploads_in_flight s <= 1)%nat
  /\ (uploads_in_flight s = 1%nat ->
      fileInput_disabled (page s) = true
      /\ uploadButton_disabled (page s) = true
      /\ fileInput_files (page s) <> [])
  /\ (forall file rest,
        fileInput_files (page s) = file :: rest ->
        valid file = false ->
        uploadButton_disabled (page s) = true).

(** The widget after a failed connectivity check. *)
Definition locked (s : Session) : Prop :=
  health_pending s = false
  /\ fileInput_files (page s) = []
  /\ uploads_in_flight s = 0%nat
  /\ fileInput_disabled (page s) = true.

(** Pages and files for the examples. *)
Module Example.

Definition markup : Page :=
  {| fileInput_files := []; fileInput_disabled := true;
     uploadButton_disabled := true;
     statusIndicator_textContent := "Checking API connection...";
     resultsBox_innerHTML := EmptyString;
     progressSection_display := "none";
     progressFill_width := "0%";
     progressText_textContent := "Uploading: 0%";
     network := []; console := [] |}.

Definition wav (name : string) (size : N) : File.t :=
  {| File.name := name; File.type := "audio/wav"; File.size := size |}.

Definition mp3 : File.t :=
  {| File.name := "song.mp3"; File.type := "audio/mpeg";
     File.size := 4096 |}.

Definition respond (code : N) (reason : string) (b : Body) : Fetched :=
  Resolved {| status := code; statusText := reason; body := b |}.

(** The Number that the JSON numeral 1.2 denotes. *)
Definition seconds : Num.number := 0x1.3333333333333p+0%float.

Definition transcript : Result :=
  {| success := Js.Bool true; text := Js.Str "hello";
     processing_time := Js.Number seconds; error := Js.Undefined |}.

Definition world (f : Fetched) : UploadWorld :=
  {| notifications := []; fetched := f;
     clock_try := "10:15:00 AM"; clock_catch := "10:15:00 AM" |}.

(** The browser's round trip on markup, taken to be the identity. *)
Definition same (markup : string) : string := markup.

(** A page on which [file] has been selected. *)
Definition selected (file : File.t) : Page :=
  set_fileInput_files [file] markup.

(** The session at the end of a run of events from the fresh page; the
    fresh page itself if the run is not possible. *)
Definition after (evs : list Event) : Session :=
  match run same (constructor markup) evs with
  | Some s => s
  | None => constructor markup
  end.

Definition healthy : Event := HealthSettled (respond 200 "OK" (Json JsonNull)).

Definition unreachable_service : Event :=
  HealthSettled (Rejected "Failed to fetch").

(** The two uploads of the specification's examples. *)
Definition test_wav : File.t := wav "test.wav" 1048576.

Definition answered : UploadWorld :=
  world (respond 200 "OK" (Json (JsonObject transcript))).

Definition server_error : Response :=
  {| status := 500; statusText := "Internal Server Error";
     body := InvalidJson "Unexpected token < in JSON at position 0" |}.

Definition refused : UploadWorld := world (Resolved server_error).

(** A notification of 575 bytes sent out of 1000. *)
Definition partway : ProgressEvent :=
  {| loaded := 575%float; total := 1000%float |}.

(** The answered upload, with that notification on the way. *)
Definition reported : UploadWorld :=
  {| notifications := [partway]; fetched := fetched answered;
     clock_try := clock_try answered;
     clock_catch := clock_catch answered |}.

End Example.


(* ================================================================== *)
(** * The rest of the class, and further notions *)
(* ================================================================== *)

(** ** handleError

    The object the method returns has the properties [success], [error]
    and [context]. *)
Record ErrorReport : Type := {
  report_success : Js.prim;
  report_error : Js.prim;
  report_context : string }.

Definition handleError (error : Js.Error) (context : string)
  : M ErrorReport :=
  console_error ("Error in " ++ context ++ ":") error ;;
  modify (set_statusIndicator_textContent ("Error: " ++ Js.message error)) ;;
  ret {| report_success := Js.Bool false;
         report_error := Js.Str (Js.message error);
         report_context := context |}.

(** The same object as [displayResults] reads it: it has no [text] and no
    [processing_time]. *)
Definition as_result (report : ErrorReport) : Parsed :=
  JsonObject {| success := report_success report;
                text := Js.Undefined;
                processing_time := Js.Undefined;
                error := report_error report |}.

(** ** What a settled upload comes to

    The [try] block of [handleUpload] ends in one of three ways: the
    transcription is shown, the failure the server reports is shown, or
    an exception reaches the [catch] block. *)
Inductive Verdict : Type :=
| Shown (r : Result) (file : File.t)
| Reported (r : Result)
| Caught (e : Js.Error).

Definition verdict (w : UploadWorld) (files : list File.t) : Verdict :=
  match fetched w with
  | Rejected why => Caught {| Js.message := why |}
  | Resolved response =>
      if ok response then
        match body response with
        | InvalidJson why => Caught {| Js.message := why |}
        | Json JsonNull =>
            Caught {| Js.message :=
                       "Cannot read properties of null (reading 'success')" |}
        | Json (JsonObject r) =>
            if Js.ToBoolean (success r) then
              match files with
              | [] =>
                  Caught {| Js.message :=
                    "Cannot read properties of undefined (reading 'name')" |}
              | file :: _ => Shown r file
              end
            else Reported r
        end
      else Caught (upload_failed response)
  end.

(** The page a settled upload leaves, by its verdict. *)
Definition settled_page (reparse : string -> string)
    (w : UploadWorld) (p : Page) : Page :=
  let q := deliver (notifications w) p in
  let old := reparse (resultsBox_innerHTML p) in
  released
    match verdict w (fileInput_files p) with
    | Shown r file =>
        set_statusIndicator_textContent "Transcription complete"
          (set_resultsBox_innerHTML
             (prepended 12
                (result_entry (clock_try w) (Js.ToString (text r))
                   (Js.ToString (processing_time r)) (File.name file))
                old) q)
    | Reported r =>
        set_resultsBox_innerHTML
          (prepended 16
             (error_entry (clock_try w) (Js.ToString (error r))) old) q
    | Caught e =>
        set_resultsBox_innerHTML
          (prepended 16 (error_entry (clock_catch w) (Js.message e)) old)
          (set_statusIndicator_textContent ("Error: " ++ Js.message e)
             (set_console
                (console p ++ [("Upload error:", Js.message e)]) q))
    end.

(** The markup is an entry of the results log put in front of [old]. *)
Definition entry_prepended (markup old : string) : Prop :=
  (exists timestamp txt time fname,
      markup = prepended 12 (result_entry timestamp txt time fname) old)
  \/ (exists timestamp err,
         markup = prepended 16 (error_entry timestamp err) old).

(** A statement that leaves a component [proj] of the page as it is. *)
Definition preserves {A X} (proj : Page -> X) (m : M A) : Prop :=
  forall p, proj (exec m p) = proj p.

(** The requests a session has sent after those of [base]: the health
    request, then one upload request for each of [files]. *)
Definition sent (base : list Request) (files : list File.t)
  : list Request :=
  base ++ health_request :: map upload_request files.

(** The byte counts [from], ..., [from + n - 1]. *)
Definition counts (from n : nat) : list Z :=
  map Z.of_nat (seq from n).

(** Whole numbers below 1024 survive [toFixed(2)], [parseFloat] and the
    conversion back to a string unchanged. *)
Definition prints_whole (n : Z) : bool :=
  String.eqb (Num.toString (Num.parseFloat (Num.fixed_layout (100 * n) 2)))
    (Num.digits n).

(** More answers of the service, for the examples. *)
Module Sample.

(** A 2xx answer that reports a failure. *)
Definition too_short : Result :=
  {| success := Js.Bool false; text := Js.Undefined;
     processing_time := Js.Undefined;
     error := Js.Str "Audio too short" |}.

Definition declined : UploadWorld :=
  Example.world (Example.respond 200 "OK" (Json (JsonObject too_short))).

(** A 2xx answer whose body is not JSON. *)
Definition garbled_body : Response :=
  {| status := 200; statusText := "OK";
     body := InvalidJson "Unexpected end of JSON input" |}.

Definition garbled : UploadWorld := Example.world (Resolved garbled_body).

(** A notification that carries no total. *)
Definition stalled : ProgressEvent :=
  {| loaded := 0%float; total := 0%float |}.

(** test.wav selected and the button clicked, the service being up. *)
Definition uploading : list Event :=
  [Example.healthy; Change [Example.test_wav]; Click].

End Sample.


(* ================================================================== *)
(** * Properties *)
(* ================================================================== *)

(** ** Strings *)

Lemma append_assoc (a b c : string) : (a ++ b) ++ c = a ++ b ++ c.
Proof. induction a as [|x a IH]; simpl; [reflexivity | now rewrite IH]. Qed.

Lemma append_empty_r (a : string) : a ++ EmptyString = a.
Proof. induction a as [|x a IH]; simpl; [reflexivity | now rewrite IH]. Qed.

Lemma prefix_append (s r : string) : prefix s (s ++ r) = true.
Proof.
  induction s as [|c s IH]; simpl.
  - now destruct r.
  - destruct (ascii_dec c c) as [_|ne]; [exact IH | now elim ne].
Qed.

Lemma prefix_split (s t : string) :
  prefix s t = true -> exists r, t = s ++ r.
Proof.
  revert t; induction s as [|c s IH]; intros t H.
  - now exists t.
  - destruct t as [|d t]; simpl in H; [discriminate|].
    destruct (ascii_dec c d) as [->|]; [|discriminate].
    destruct (IH t H) as [r ->]. now exists r.
Qed.

Lemma includesb_unfold (t s : string) :
  Str.includesb t s
  = if prefix s t then true
    else match t with
         | EmptyString => false
         | String _ t' => Str.includesb t' s
         end.
Proof. now destruct t. Qed.

Lemma includesb_here (t s : string) :
  prefix s t = true -> Str.includesb t s = true.
Proof. intros H. rewrite includesb_unfold. now rewrite H. Qed.

Lemma includesb_Includes (t s : string) :
  Str.includesb t s = true <-> Str.Includes t s.
Proof.
  split.
  - induction t as [|c t IH]; rewrite includesb_unfold.
    + destruct (prefix s EmptyString) eqn:E; [|discriminate].
      intros _. destruct (prefix_split _ _ E) as [r Hr].
      now exists EmptyString, r.
    + destruct (prefix s (String c t)) eqn:E.
      * intros _. destruct (prefix_split _ _ E) as [r Hr].
        now exists EmptyString, r.
      * intros H. destruct (IH H) as (a & b & ->).
        now exists (String c a), b.
  - intros (a & b & ->). induction a as [|c a IH].
    + change (EmptyString ++ s ++ b) with (s ++ b).
      apply includesb_here, prefix_append.
    + change (String c a ++ s ++ b) with (String c (a ++ s ++ b)).
      rewrite includesb_unfold, IH. now destruct (prefix s _).
Qed.

Lemma Includes_middle (a s b : string) : Str.Includes (a ++ s ++ b) s.
Proof. now exists a, b. Qed.

Lemma Includes_append_l (a t s : string) :
  Str.Includes t s -> Str.Includes (a ++ t) s.
Proof.
  intros (x & y & ->). exists (a ++ x), y. now rewrite append_assoc.
Qed.

Lemma Includes_append_r (t b s : string) :
  Str.Includes t s -> Str.Includes (t ++ b) s.
Proof.
  intros (x & y & ->). exists x, (y ++ b). now rewrite !append_assoc.
Qed.

(** ** The progress notifications only touch the progress elements *)

Lemma forEach_onUploadProgress (evs : list ProgressEvent) (p : Page) :
  forEach evs onUploadProgress p = (deliver evs p, Normal tt).
Proof.
  unfold deliver, exec. revert p.
  induction evs as [|ev evs IH]; intros p; [reflexivity|].
  change (forEach (ev :: evs) onUploadProgress p)
    with (forEach evs onUploadProgress (exec (onUploadProgress ev) p)).
  apply IH.
Qed.

Lemma deliver_cons (ev : ProgressEvent) (evs : list ProgressEvent) p :
  deliver (ev :: evs) p = deliver evs (exec (onUploadProgress ev) p).
Proof. reflexivity. Qed.

Lemma deliver_app (evs evs' : list ProgressEvent) (p : Page) :
  deliver (evs ++ evs') p = deliver evs' (deliver evs p).
Proof.
  revert p. induction evs as [|ev evs IH]; intros p; [reflexivity|].
  rewrite <- app_comm_cons, !deliver_cons. apply IH.
Qed.

Lemma deliver_frame (evs : list ProgressEvent) (p : Page) :
  fileInput_files (deliver evs p) = fileInput_files p
  /\ fileInput_disabled (deliver evs p) = fileInput_disabled p
  /\ uploadButton_disabled (deliver evs p) = uploadButton_disabled p
  /\ statusIndicator_textContent (deliver evs p)
     = statusIndicator_textContent p
  /\ resultsBox_innerHTML (deliver evs p) = resultsBox_innerHTML p
  /\ progressSection_display (deliver evs p) = progressSection_display p
  /\ network (deliver evs p) = network p
  /\ console (deliver evs p) = console p.
Proof.
  revert p. induction evs as [|ev evs IH]; intros p.
  - repeat split.
  - rewrite deliver_cons.
    destruct (IH (exec (onUploadProgress ev) p))
      as (-> & -> & -> & -> & -> & -> & -> & ->).
    unfold exec, onUploadProgress, updateProgress, bind, modify,
      style_width.
    destruct (width_accepts (percentComplete ev)); repeat split.
Qed.

(** ** Sequencing *)

Lemma bind_normal {A B} (m : M A) (k : A -> M B) p p' a :
  m p = (p', Normal a) -> bind m k p = k a p'.
Proof. intros H. unfold bind. now rewrite H. Qed.

Lemma bind_throw {A B} (m : M A) (k : A -> M B) p p' e :
  m p = (p', Throw e) -> bind m k p = (p', Throw e).
Proof. intros H. unfold bind. now rewrite H. Qed.

Lemma try_catch_normal {A} (b : M A) h p p' a :
  b p = (p', Normal a) -> try_catch b h p = (p', Normal a).
Proof. intros H. unfold try_catch. now rewrite H. Qed.

Lemma try_catch_throw {A} (b : M A) h p p' e :
  b p = (p', Throw e) -> try_catch b h p = h e p'.
Proof. intros H. unfold try_catch. now rewrite H. Qed.

Lemma try_finally_runs {A} (b : M A) (f : M unit) p p' p'' c :
  b p = (p', c) -> f p' = (p'', Normal tt) ->
  try_finally b f p = (p'', c).
Proof. intros H H'. unfold try_finally. now rewrite H, H'. Qed.

Section Properties.

Variable reparse : string -> string.

(** ** Equations for the method bodies *)

Lemma displayResults_failure timestamp r p :
  Js.ToBoolean (success r) = false ->
  displayResults reparse timestamp (JsonObject r) p
  = (set_resultsBox_innerHTML
       (prepended 16 (error_entry timestamp (Js.ToString (error r)))
          (reparse (resultsBox_innerHTML p))) p,
     Normal tt).
Proof.
  intros H. unfold displayResults, properties, bind, ret.
  rewrite H. reflexivity.
Qed.

Lemma displayResults_success timestamp r p file rest :
  Js.ToBoolean (success r) = true ->
  fileInput_files p = file :: rest ->
  displayResults reparse timestamp (JsonObject r) p
  = (set_statusIndicator_textContent "Transcription complete"
       (set_resultsBox_innerHTML
          (prepended 12
             (result_entry timestamp (Js.ToString (text r))
                (Js.ToString (processing_time r)) (File.name file))
             (reparse (resultsBox_innerHTML p))) p),
     Normal tt).
Proof.
  intros H Hf.
  unfold displayResults, properties, first_file_name, bind, ret, gets.
  rewrite H. cbn [negb]. cbv beta iota. rewrite Hf. reflexivity.
Qed.

(** The [catch] block of [handleUpload] never throws. *)
Lemma catch_block timestamp (e : Js.Error) (p : Page) :
  (console_error "Upload error:" e ;;
   modify (set_statusIndicator_textContent ("Error: " ++ Js.message e)) ;;
   displayResults reparse timestamp (failure e)) p
  = (let q := set_statusIndicator_textContent ("Error: " ++ Js.message e)
                (set_console (console p ++ [("Upload error:", Js.message e)])
                   p) in
     set_resultsBox_innerHTML
       (prepended 16 (error_entry timestamp (Js.message e))
          (reparse (resultsBox_innerHTML p))) q,
     Normal tt).
Proof. reflexivity. Qed.

Lemma handleUpload_idle w p :
  fileInput_files p = [] -> handleUpload reparse w p = (p, Normal tt).
Proof. intros H. unfold handleUpload, bind, gets. now rewrite H. Qed.

(** [handleUpload] is its two halves run one after the other. *)
Lemma handleUpload_phases w p :
  handleUpload reparse w p
  = (started <- handleUpload_begin ;;
     if started then handleUpload_settle reparse w else ret tt) p.
Proof.
  unfold handleUpload, handleUpload_begin, bind, gets.
  destruct (fileInput_files p); reflexivity.
Qed.

Lemma checkAPIConnection_phases w p :
  checkAPIConnection w p
  = (fetch health_request ;; checkAPIConnection_settle w) p.
Proof. reflexivity. Qed.

Lemma handleUpload_begin_started p file rest :
  fileInput_files p = file :: rest ->
  handleUpload_begin p = (begun file p, Normal true).
Proof.
  intros H. unfold handleUpload_begin, bind, gets. cbv beta iota.
  now rewrite H.
Qed.

Lemma handleUpload_begin_idle p :
  fileInput_files p = [] -> handleUpload_begin p = (p, Normal false).
Proof.
  intros H. unfold handleUpload_begin, bind, gets. cbv beta iota.
  now rewrite H.
Qed.

Lemma handleUpload_started w p file rest :
  fileInput_files p = file :: rest ->
  handleUpload reparse w p = handleUpload_settle reparse w (begun file p).
Proof.
  intros H. rewrite handleUpload_phases. unfold bind at 1.
  now rewrite (handleUpload_begin_started p file rest H).
Qed.

Lemma handleUpload_settle_released w p :
  exists q,
    handleUpload_settle reparse w p = (released q, Normal tt).
Proof.
  unfold handleUpload_settle, try_finally.
  match goal with
  | |- context [ match ?b p with _ => _ end ] => destruct (b p) as [q c] eqn:E
  end.
  exists q. unfold bind, modify; cbn. f_equal.
  (* the try/catch statement completes normally *)
  unfold try_catch in E.
  match type of E with
  | match ?b p with _ => _ end = _ => destruct (b p) as [q' [[]|e]]
  end.
  - now inversion E.
  - rewrite catch_block in E. now inversion E.
Qed.

(** C3. Whenever an upload has been started, that is whenever
    [handleUpload] runs with a file selected, then however the request
    settles (rejected, any status, any body, any progress notifications)
    the method completes, and it leaves the progress section hidden, the
    file input and the upload button enabled, and the selection empty. *)
Theorem upload_always_releases_controls :
  forall (w : UploadWorld) (p : Page) (file : File.t) (rest : list File.t),
    fileInput_files p = file :: rest ->
    let p' := exec (handleUpload reparse w) p in
    outcome (handleUpload reparse w) p = Normal tt
    /\ progressSection_display p' = "none"
    /\ fileInput_disabled p' = false
    /\ uploadButton_disabled p' = false
    /\ fileInput_files p' = [].
Proof.
  intros w p file rest Hf p'. subst p'. unfold exec, outcome.
  rewrite (handleUpload_started w p file rest Hf).
  destruct (handleUpload_settle_released w (begun file p)) as [q ->].
  repeat split.
Qed.

(** The run of the second half by how the request settled. *)
Lemma settle_success w p response r file rest :
  fetched w = Resolved response ->
  ok response = true ->
  body response = Json (JsonObject r) ->
  Js.ToBoolean (success r) = true ->
  fileInput_files p = file :: rest ->
  handleUpload_settle reparse w p
  = (released
       (set_statusIndicator_textContent "Transcription complete"
          (set_resultsBox_innerHTML
             (prepended 12
                (result_entry (clock_try w) (Js.ToString (text r))
                   (Js.ToString (processing_time r)) (File.name file))
                (reparse (resultsBox_innerHTML p)))
             (deliver (notifications w) p))),
     Normal tt).
Proof.
  intros Hw Hok Hb Hs Hf.
  destruct (deliver_frame (notifications w) p)
    as (Hfiles & _ & _ & _ & Hhtml & _).
  rewrite <- Hfiles in Hf. rewrite <- Hhtml.
  unfold handleUpload_settle.
  eapply try_finally_runs; [|reflexivity].
  apply try_catch_normal.
  erewrite bind_normal;
    [|erewrite bind_normal by apply forEach_onUploadProgress;
      rewrite Hw; reflexivity].
  rewrite Hok. cbn [negb]. cbv iota.
  erewrite bind_normal by reflexivity.
  unfold json. rewrite Hb.
  erewrite bind_normal by reflexivity.
  apply (displayResults_success _ r _ file rest Hs Hf).
Qed.


(** The entries hold what was interpolated into them. *)
Ltac includes :=
  repeat match goal with
    | |- Str.Includes (?s ++ ?b) ?s => exists EmptyString, b; reflexivity
    | |- Str.Includes (_ ++ _) _ => apply Includes_append_l
    end.

Lemma result_entry_includes timestamp txt time fname :
  Str.Includes (result_entry timestamp txt time fname) txt
  /\ Str.Includes (result_entry timestamp txt time fname) time
  /\ Str.Includes (result_entry timestamp txt time fname) fname.
Proof. unfold result_entry. repeat split; includes. Qed.


(** The markup assigned holds the interpolated field between two texts
    that do not depend on it. *)
Lemma error_markup_around (timestamp old : string) :
  exists before after, forall err : string,
    prepended 16 (error_entry timestamp err) old = before ++ err ++ after.
Proof.
  exists (Str.newline ++ Str.indent 16 ++ "<div class=" ++ Str.dquote
          ++ "transcription-result error" ++ Str.dquote ++ ">"
          ++ Str.newline ++ Str.indent 20 ++ "<p><strong>Error at "
          ++ timestamp ++ ":</strong></p>" ++ Str.newline
          ++ Str.indent 20 ++ "<p>"),
         ("</p>" ++ Str.newline ++ Str.indent 16 ++ "</div>"
          ++ Str.newline ++ Str.indent 16 ++ old
          ++ Str.newline ++ Str.indent 12).
  intros err. unfold prepended, error_entry.
  now rewrite !append_assoc.
Qed.

Lemma result_markup_around (timestamp time fname old : string) :
  exists before after, forall txt : string,
    prepended 12 (result_entry timestamp txt time fname) old
    = before ++ txt ++ after.
Proof.
  exists (Str.newline ++ Str.indent 12 ++ "<div class=" ++ Str.dquote
          ++ "transcription-result" ++ Str.dquote ++ ">"
          ++ Str.newline ++ Str.indent 16
          ++ "<p><strong>Transcription Result (" ++ timestamp
          ++ "):</strong></p>" ++ Str.newline ++ Str.indent 16 ++ "<p>"),
         ("</p>" ++ Str.newline ++ Str.indent 16
          ++ "<p><strong>Processing Time:</strong> " ++ time ++ "s</p>"
          ++ Str.newline ++ Str.indent 16 ++ "<p><strong>File:</strong> "
          ++ fname ++ "</p>" ++ Str.newline ++ Str.indent 12 ++ "</div>"
          ++ Str.newline ++ Str.indent 12 ++ old
          ++ Str.newline ++ Str.indent 8).
  intros txt. unfold prepended, result_entry.
  now rewrite !append_assoc.
Qed.

(** C1. When an upload is answered with a 2xx status and the JSON body
    [{success: true, text: t, processing_time: p}], then after
    [handleUpload] the markup of the results box starts with a new entry,
    followed by what the box held before; the entry contains [t], [p]
    (as the template literal renders them) and the name of the selected
    file, and the status text is "Transcription complete". *)
Theorem upload_success_rendered :
  forall (w : UploadWorld) (p : Page) (file : File.t) (rest : list File.t)
         (response : Response) (r : Result) (t pt : Js.prim),
    fileInput_files p = file :: rest ->
    fetched w = Resolved response ->
    ok response = true ->
    body response = Json (JsonObject r) ->
    success r = Js.Bool true ->
    text r = t ->
    processing_time r = pt ->
    let p' := exec (handleUpload reparse w) p in
    let entry := result_entry (clock_try w) (Js.ToString t)
                   (Js.ToString pt) (File.name file) in
    resultsBox_innerHTML p'
    = prepended 12 entry (reparse (resultsBox_innerHTML p))
    /\ Str.Includes entry (Js.ToString t)
    /\ Str.Includes entry (Js.ToString pt)
    /\ Str.Includes entry (File.name file)
    /\ statusIndicator_textContent p' = "Transcription complete".
Proof.
  intros w p file rest response r t pt Hf Hw Hok Hb Hs <- <- p' entry.
  subst p' entry. unfold exec.
  rewrite (handleUpload_started w p file rest Hf).
  assert (Hs' : Js.ToBoolean (success r) = true) by now rewrite Hs.
  rewrite (settle_success w (begun file p) response r file rest
             Hw Hok Hb Hs' Hf).
  destruct (result_entry_includes (clock_try w) (Js.ToString (text r))
              (Js.ToString (processing_time r)) (File.name file))
    as (H1 & H2 & H3).
  repeat split; assumption.
Qed.


(** C10. [displayResults] copies the [error] field (when [success] is
    falsy) and the [text] field (when it is truthy) into the markup it
    assigns letter for letter: the markup is a fixed text, the field, and
    another fixed text, neither of which depends on the field. Whatever
    markup the server puts into the field becomes markup of the page. *)
Theorem displayResults_interpolates_verbatim :
  forall (timestamp : string) (p : Page) (succ : Js.prim),
    (Js.ToBoolean succ = false ->
     exists before after, forall (s : string) (t pt : Js.prim),
       resultsBox_innerHTML
         (exec (displayResults reparse timestamp
                  (JsonObject {| success := succ; text := t;
                                 processing_time := pt;
                                 error := Js.Str s |})) p)
       = before ++ s ++ after)
    /\ (Js.ToBoolean succ = true ->
        fileInput_files p <> [] ->
        forall (pt e : Js.prim),
        exists before after, forall s : string,
          resultsBox_innerHTML
            (exec (displayResults reparse timestamp
                     (JsonObject {| success := succ; text := Js.Str s;
                                    processing_time := pt;
                                    error := e |})) p)
          = before ++ s ++ after).
Proof.
  intros timestamp p succ. split.
  - intros Hs.
    destruct (error_markup_around timestamp
                (reparse (resultsBox_innerHTML p)))
      as (before & after & H).
    exists before, after. intros s t pt. unfold exec.
    rewrite displayResults_failure by exact Hs. apply H.
  - intros Hs Hf pt e.
    destruct (fileInput_files p) as [|file rest] eqn:E; [now elim Hf|].
    destruct (result_markup_around timestamp (Js.ToString pt)
                (File.name file) (reparse (resultsBox_innerHTML p)))
      as (before & after & H).
    exists before, after. intros s. unfold exec.
    rewrite (displayResults_success _ _ _ file rest) by assumption.
    apply H.
Qed.

(** ** File selection *)

Lemma select_wrong_type p file rest :
  fileInput_files p = file :: rest ->
  String.eqb (File.type file) "audio/wav" = false ->
  handleFileSelection p
  = (set_uploadButton_disabled true
       (set_statusIndicator_textContent
          "Error: Please select a WAV file" p),
     Normal tt).
Proof.
  intros Hf Ht. unfold handleFileSelection, bind, gets. cbv beta iota.
  rewrite Hf, Ht. reflexivity.
Qed.

Lemma select_too_large p file rest :
  fileInput_files p = file :: rest ->
  String.eqb (File.type file) "audio/wav" = true ->
  (maxFileSize <? File.size file)%N = true ->
  handleFileSelection p
  = (set_uploadButton_disabled true
       (set_statusIndicator_textContent
          "Error: File size exceeds 50MB limit" p),
     Normal tt).
Proof.
  intros Hf Ht Hs. unfold handleFileSelection, bind, gets. cbv beta iota.
  rewrite Hf, Ht, Hs. reflexivity.
Qed.

Lemma select_valid p file rest :
  fileInput_files p = file :: rest ->
  valid file = true ->
  handleFileSelection p
  = (set_statusIndicator_textContent
       ("Selected: " ++ File.name file ++ " ("
        ++ Num.toFixed (megabytes (File.size file)) 2 ++ "MB)")
       (set_uploadButton_disabled false p),
     Normal tt).
Proof.
  intros Hf Hv. apply andb_prop in Hv as [Ht Hs].
  apply N.leb_le, N.ltb_ge in Hs.
  unfold handleFileSelection, bind, gets. cbv beta iota.
  rewrite Hf, Ht, Hs. reflexivity.
Qed.

Lemma select_invalid p file rest :
  fileInput_files p = file :: rest ->
  valid file = false ->
  uploadButton_disabled (exec handleFileSelection p) = true.
Proof.
  intros Hf Hv. unfold exec.
  destruct (String.eqb (File.type file) "audio/wav") eqn:Ht.
  - unfold valid in Hv. rewrite Ht in Hv. cbn [andb] in Hv.
    apply N.leb_gt, N.ltb_lt in Hv.
    now rewrite (select_too_large p file rest Hf Ht Hv).
  - now rewrite (select_wrong_type p file rest Hf Ht).
Qed.

(** [(size / 1024 / 1024).toFixed(2)] prints the integer nearest to a
    hundred times the size in megabytes. *)
Lemma megabytes_nearest_scaled (size : N) :
  Num.nearest_scaled (megabytes size) 2
  = (100 * Z.of_N size + 524288) / 1048576.
Proof.
  unfold Num.nearest_scaled, megabytes, Qfloor.
  cbn -[Z.mul Z.add Z.div Z.of_N].
  replace (Z.of_N size * 1 * 1 * (10 * (10 * 1)) * 2 + 1 * 1048576)
    with ((100 * Z.of_N size + 524288) * 2) by lia.
  change 2097152 with (1048576 * 2).
  now apply Z.div_mul_cancel_r.
Qed.

Lemma megabytes_small (size : N) :
  (size <= 5242)%N -> Num.toFixed (megabytes size) 2 = "0.00".
Proof.
  intros H. unfold Num.toFixed. rewrite megabytes_nearest_scaled.
  rewrite Z.div_small by lia. reflexivity.
Qed.

(** C5. When the selected file is not of type audio/wav, or is larger
    than 50MB (50*1024*1024 bytes), [handleFileSelection] disables the
    upload button, shows the type error in the first case and the size
    error in the second (a file of the right type that is too large),
    and sends no request; the button being disabled, no click on it is
    dispatched either. *)
Theorem invalid_selection_blocks_upload :
  forall (p : Page) (file : File.t) (rest : list File.t),
    fileInput_files p = file :: rest ->
    File.type file <> "audio/wav" \/ (maxFileSize < File.size file)%N ->
    let p' := exec handleFileSelection p in
    uploadButton_disabled p' = true
    /\ (File.type file <> "audio/wav" ->
        statusIndicator_textContent p' = "Error: Please select a WAV file")
    /\ (File.type file = "audio/wav" ->
        statusIndicator_textContent p'
        = "Error: File size exceeds 50MB limit")
    /\ network p' = network p
    /\ (forall s : Session, page s = p' -> step reparse s Click = None).
Proof.
  intros p file rest Hf Hbad p'. subst p'. unfold exec.
  destruct (String.eqb (File.type file) "audio/wav") eqn:Ht.
  - apply String.eqb_eq in Ht as Ht'.
    destruct Hbad as [Hbad|Hbad]; [now elim Hbad|].
    apply N.ltb_lt in Hbad.
    rewrite (select_too_large p file rest Hf Ht Hbad).
    repeat split; try reflexivity.
    + intros Hne. now elim Hne.
    + intros s Hs. unfold step. now rewrite Hs.
  - apply String.eqb_neq in Ht as Ht'.
    rewrite (select_wrong_type p file rest Hf Ht).
    repeat split; try reflexivity.
    + intros He. now elim Ht'.
    + intros s Hs. unfold step. now rewrite Hs.
Qed.

(** C6, as the script has it. When the selected file is of type
    audio/wav and at most 50MB large, [handleFileSelection] enables the
    upload button and sets the status text to [Selected: name (SMB)],
    the unit standing inside the parentheses, where [S] is
    [(size / 1024 / 1024).toFixed(2)]: the integer [n] nearest to
    [100 * size / 2^20], the larger one on a tie, printed with two
    decimals. *)
Theorem valid_selection_enables_upload :
  forall (p : Page) (file : File.t) (rest : list File.t),
    fileInput_files p = file :: rest ->
    File.type file = "audio/wav" ->
    (File.size file <= maxFileSize)%N ->
    let p' := exec handleFileSelection p in
    let S := Num.toFixed (megabytes (File.size file)) 2 in
    let n := (100 * Z.of_N (File.size file) + 524288) / 1048576 in
    uploadButton_disabled p' = false
    /\ statusIndicator_textContent p'
       = "Selected: " ++ File.name file ++ " (" ++ S ++ "MB)"
    /\ S = Num.fixed_layout n 2
    /\ 2 * 100 * Z.of_N (File.size file) - 1048576 < 2 * 1048576 * n
       <= 2 * 100 * Z.of_N (File.size file) + 1048576.
Proof.
  intros p file rest Hf Ht Hs p' S n. subst p' S n. unfold exec.
  assert (Hv : valid file = true).
  { unfold valid. apply andb_true_intro. split.
    - now apply String.eqb_eq.
    - now apply N.leb_le. }
  rewrite (select_valid p file rest Hf Hv).
  split; [reflexivity|]. split; [reflexivity|]. split.
  - unfold Num.toFixed. now rewrite megabytes_nearest_scaled.
  - pose proof (Z.mul_div_le
                  (100 * Z.of_N (File.size file) + 524288) 1048576).
    pose proof (Z.mul_succ_div_gt
                  (100 * Z.of_N (File.size file) + 524288) 1048576).
    lia.
Qed.

(** C7, as the script has it. On accepting a valid file the widget shows
    the size in megabytes with two decimals whatever the magnitude, so
    every file below 5243 bytes is shown as 0.00MB; the conversion to
    Bytes, KB, MB or GB is what [formatFileSize] returns, 500 Bytes for
    500 bytes and 2 KB for 2048, a method file selection does not use. *)
Theorem valid_selection_shows_megabytes :
  forall (p : Page) (file : File.t) (rest : list File.t),
    fileInput_files p = file :: rest ->
    valid file = true ->
    let p' := exec handleFileSelection p in
    statusIndicator_textContent p'
    = "Selected: " ++ File.name file ++ " ("
      ++ Num.toFixed (megabytes (File.size file)) 2 ++ "MB)"
    /\ ((File.size file <= 5242)%N ->
        statusIndicator_textContent p'
        = "Selected: " ++ File.name file ++ " (0.00MB)")
    /\ formatFileSize 500 = "500 Bytes"
    /\ formatFileSize 2048 = "2 KB".
Proof.
  intros p file rest Hf Hv p'. subst p'. unfold exec.
  rewrite (select_valid p file rest Hf Hv).
  split; [reflexivity|]. split; [|split; vm_compute; reflexivity].
  intros Hs. cbn [fst statusIndicator_textContent
                    set_statusIndicator_textContent].
  now rewrite (megabytes_small _ Hs).
Qed.

(** ** Progress *)

(** Statements that leave the progress elements alone compose. *)
Lemma keeps_ret {A} (a : A) : keeps_progress (ret a).
Proof. now split. Qed.

Lemma keeps_throw {A} (e : Js.Error) : keeps_progress (@throw A e).
Proof. now split. Qed.

Lemma keeps_gets {A} (f : Page -> A) : keeps_progress (gets f).
Proof. now split. Qed.

Lemma keeps_modify (f : Page -> Page) :
  (forall p, progressText_textContent (f p) = progressText_textContent p
             /\ progressFill_width (f p) = progressFill_width p) ->
  keeps_progress (modify f).
Proof. intros H p. apply H. Qed.

Lemma keeps_bind {A B} (m : M A) (k : A -> M B) :
  keeps_progress m -> (forall a, keeps_progress (k a)) ->
  keeps_progress (bind m k).
Proof.
  intros Hm Hk p. specialize (Hm p). unfold exec, bind in *.
  destruct (m p) as [p' [a|e]]; cbn [fst] in *.
  - destruct (Hk a p') as [H1 H2]. unfold exec in H1, H2.
    destruct Hm as [<- <-]. now split.
  - exact Hm.
Qed.

Lemma keeps_try_catch {A} (b : M A) (h : Js.Error -> M A) :
  keeps_progress b -> (forall e, keeps_progress (h e)) ->
  keeps_progress (try_catch b h).
Proof.
  intros Hb Hh p. specialize (Hb p). unfold exec, try_catch in *.
  destruct (b p) as [p' [a|e]]; cbn [fst] in *.
  - exact Hb.
  - destruct (Hh e p') as [H1 H2]. unfold exec in H1, H2.
    destruct Hb as [<- <-]. now split.
Qed.

Lemma keeps_try_finally {A} (b : M A) (f : M unit) :
  keeps_progress b -> keeps_progress f ->
  keeps_progress (try_finally b f).
Proof.
  intros Hb Hf p. specialize (Hb p). unfold exec, try_finally in *.
  destruct (b p) as [p' c]; cbn [fst] in *.
  specialize (Hf p'). unfold exec in Hf.
  destruct (f p') as [p'' [[]|e]]; cbn [fst] in *;
    destruct Hb as [<- <-]; exact Hf.
Qed.

Ltac keeps_step :=
  first
    [ apply keeps_ret | apply keeps_throw | apply keeps_gets
    | apply keeps_modify; intros; now split
    | apply keeps_bind; [|intros] | apply keeps_try_finally
    | apply keeps_try_catch; [|intros]
    | match goal with
      | |- keeps_progress (match ?x with _ => _ end) => destruct x
      end ].

Lemma keeps_displayResults timestamp (v : Parsed) :
  keeps_progress (displayResults reparse timestamp v).
Proof.
  unfold displayResults, properties, first_file_name.
  repeat keeps_step.
Qed.

Ltac keeps := repeat first [apply keeps_displayResults | keeps_step].

(** The notifications come first, and nothing that follows them in
    [handleUpload] writes to the progress bar or the progress text. *)
Lemma settle_after_notifications (w : UploadWorld) (p : Page) :
  handleUpload_settle reparse w p
  = handleUpload_settle reparse (quiet w) (deliver (notifications w) p).
Proof.
  assert (E : forall k : Response -> M unit,
             (response <- (forEach (notifications w) onUploadProgress ;;
                           await (fetched w)) ;;
              k response) p
             = (response <- (forEach [] onUploadProgress ;;
                             await (fetched w)) ;;
                k response) (deliver (notifications w) p)).
  { intros k. unfold bind. now rewrite forEach_onUploadProgress. }
  unfold handleUpload_settle, try_finally, try_catch.
  rewrite E. reflexivity.
Qed.

Lemma settle_quiet_keeps_progress (w : UploadWorld) :
  keeps_progress (handleUpload_settle reparse (quiet w)).
Proof.
  unfold handleUpload_settle, await, json, console_error. keeps.
Qed.

Lemma settle_keeps_progress (w : UploadWorld) (p : Page) :
  progressText_textContent (exec (handleUpload_settle reparse w) p)
  = progressText_textContent (deliver (notifications w) p)
  /\ progressFill_width (exec (handleUpload_settle reparse w) p)
     = progressFill_width (deliver (notifications w) p).
Proof.
  unfold exec. rewrite settle_after_notifications.
  apply (settle_quiet_keeps_progress w).
Qed.

(** C9, as the script has it. Each progress notification with [loaded]
    bytes out of [total] sets the progress text to "Uploading: N%" with
    [N] the Number [(loaded / total) * 100] rounded by [Math.round], and
    assigns that Number, unrounded and followed by a percent sign, to the
    width of the progress bar. The style takes the width when the Number
    is finite and not negative and drops the assignment otherwise (a
    total of 0 gives NaN or Infinity), the bar then keeping its width.
    After any run of notifications the two elements show the last one in
    this way, and they still do when the upload during which they
    arrived is over. *)
Theorem progress_notification_shown :
  forall (evs : list ProgressEvent) (ev : ProgressEvent) (p : Page),
    let percent := (loaded ev / total ev * 100)%float in
    let shown := "Uploading: " ++ Num.toString (Num.round percent) ++ "%" in
    let width := Num.toString percent ++ "%" in
    progressText_textContent (deliver (evs ++ [ev]) p) = shown
    /\ (width_accepts percent = true ->
        exec (onUploadProgress ev) p
        = set_progressText_textContent shown
            (set_progressFill_width width p)
        /\ progressFill_width (deliver (evs ++ [ev]) p) = width)
    /\ (width_accepts percent = false ->
        exec (onUploadProgress ev) p
        = set_progressText_textContent shown p
        /\ progressFill_width (deliver (evs ++ [ev]) p)
           = progressFill_width (deliver evs p))
    /\ forall (w : UploadWorld) (file : File.t) (rest : list File.t),
         fileInput_files p = file :: rest ->
         notifications w = (evs ++ [ev])%list ->
         progressText_textContent (exec (handleUpload reparse w) p) = shown
         /\ (width_accepts percent = true ->
             progressFill_width (exec (handleUpload reparse w) p) = width).
Proof.
  intros evs ev p percent shown width. subst percent shown width.
  rewrite deliver_app.
  assert (Hon : forall q,
             exec (onUploadProgress ev) q
             = set_progressText_textContent
                 ("Uploading: "
                  ++ Num.toString (Num.round (percentComplete ev)) ++ "%")
                 (style_width (percentComplete ev) q)) by reflexivity.
  change (deliver [ev] (deliver evs p))
    with (exec (onUploadProgress ev) (deliver evs p)).
  unfold percentComplete in Hon.
  split; [now rewrite Hon|]. split; [|split].
  - intros Ha. rewrite !Hon. unfold style_width. now rewrite Ha.
  - intros Ha. rewrite !Hon. unfold style_width. now rewrite Ha.
  - intros w file rest Hf Hn. unfold exec.
    rewrite (handleUpload_started w p file rest Hf).
    destruct (settle_keeps_progress w (begun file p)) as [Ht Hw].
    unfold exec in Ht, Hw. rewrite Ht, Hw, Hn, deliver_app.
    change (deliver [ev] (deliver evs (begun file p)))
      with (exec (onUploadProgress ev) (deliver evs (begun file p))).
    rewrite Hon. split; [reflexivity|].
    intros Ha. unfold style_width. now rewrite Ha.
Qed.

(** ** The event loop *)

Lemma handleFileSelection_frame (p : Page) :
  fileInput_files (exec handleFileSelection p) = fileInput_files p
  /\ fileInput_disabled (exec handleFileSelection p) = fileInput_disabled p
  /\ network (exec handleFileSelection p) = network p.
Proof.
  unfold exec, handleFileSelection, bind, gets. cbv beta iota.
  destruct (fileInput_files p) as [|file rest] eqn:E;
    [cbn; now rewrite E|].
  destruct (String.eqb (File.type file) "audio/wav");
    [destruct (maxFileSize <? File.size file)%N|];
    cbn; now rewrite E.
Qed.

Lemma health_settles (w : Fetched) (p : Page) :
  exists (b : bool) (text : string) (log : list (string * string)),
    checkAPIConnection_settle w p
    = (set_console log
         (set_fileInput_disabled b
            (set_statusIndicator_textContent text p)),
       Normal tt)
    /\ (health_fails w ->
        b = true
        /\ text = "Error: Cannot connect to transcription service").
Proof.
  unfold checkAPIConnection_settle.
  destruct w as [why | response]; [|destruct (ok response) eqn:Hok].
  - exists true. do 2 eexists. split; [reflexivity | now split].
  - exists false, "Ready to process audio files", (console p).
    split.
    + erewrite try_catch_normal;
        [|erewrite bind_normal by reflexivity; rewrite Hok; reflexivity].
      now destruct p.
    + cbn. rewrite Hok. discriminate.
  - exists true. do 2 eexists. split; [|now split].
    erewrite try_catch_throw;
      [|erewrite bind_normal by reflexivity; rewrite Hok; reflexivity].
    reflexivity.
Qed.

Lemma consistent_load (markup : Page) :
  fresh markup -> consistent (constructor markup).
Proof.
  intros [Hf Hd]. unfold consistent, constructor; cbn.
  repeat split; auto; try discriminate.
  intros file rest E. rewrite Hf in E. discriminate.
Qed.

Lemma consistent_step (s s' : Session) (ev : Event) :
  consistent s -> step reparse s ev = Some s' -> consistent s'.
Proof.
  intros (Hh & Hle & Hup & Hinv) Hstep.
  destruct ev as [w | files | | w | msg]; unfold step in Hstep.
  - (* the health request settles *)
    destruct (health_pending s) eqn:Ep; [|discriminate].
    destruct (Hh eq_refl) as (Hf & Hn & Hd).
    destruct (health_settles w (page s)) as (b & text & log & E & _).
    inversion Hstep; subst s'; clear Hstep. unfold exec. rewrite E.
    unfold consistent; cbn. rewrite Hf, Hn.
    split; [discriminate|]. split; [lia|]. split; [discriminate|].
    discriminate.
  - (* a selection *)
    destruct (fileInput_disabled (page s)) eqn:Ed; [discriminate|].
    inversion Hstep; subst s'; clear Hstep.
    destruct (handleFileSelection_frame
                (set_fileInput_files files (page s))) as (Ff & Fd & _).
    unfold consistent; cbn [page health_pending uploads_in_flight].
    rewrite Ff, Fd. cbn.
    split; [|split; [exact Hle|split]].
    + intros Ep. destruct (Hh Ep) as (_ & _ & Hd). congruence.
    + intros En. destruct (Hup En) as (Hd & _). congruence.
    + intros file rest E Hv.
      now apply (select_invalid _ file rest).
  - (* a click *)
    destruct (uploadButton_disabled (page s)) eqn:Eb; [discriminate|].
    destruct (fileInput_files (page s)) as [|file rest] eqn:Ef.
    + rewrite (handleUpload_begin_idle _ Ef) in Hstep.
      inversion Hstep; subst s'; clear Hstep.
      unfold consistent; cbn [page health_pending uploads_in_flight].
      rewrite Ef, Eb.
      split; [exact Hh|]. split; [exact Hle|]. split; [exact Hup|].
      exact Hinv.
    + rewrite (handleUpload_begin_started _ file rest Ef) in Hstep.
      inversion Hstep; subst s'; clear Hstep.
      assert (En : uploads_in_flight s = 0%nat).
      { destruct (uploads_in_flight s) as [|[|n]]; [reflexivity| |lia].
        destruct (Hup eq_refl) as (_ & ? & _). congruence. }
      unfold consistent; cbn. rewrite En.
      split; [|split; [lia|split]].
      * intros Ep. destruct (Hh Ep) as (? & _). discriminate.
      * intros _. rewrite Ef. split; [reflexivity|].
        split; [reflexivity|discriminate].
      * reflexivity.
  - (* an upload settles *)
    destruct (uploads_in_flight s) as [|n] eqn:En; [discriminate|].
    inversion Hstep; subst s'; clear Hstep.
    destruct (handleUpload_settle_released w (page s)) as [q E].
    unfold exec. rewrite E.
    unfold consistent; cbn.
    split; [|split; [lia|split]].
    + intros Ep. destruct (Hh Ep) as (_ & ? & _). discriminate.
    + intros ->. lia.
    + discriminate.
  - (* an uncaught error *)
    inversion Hstep; subst s'; clear Hstep.
    unfold consistent; cbn.
    split; [exact Hh|]. split; [exact Hle|]. split; [exact Hup|].
    exact Hinv.
Qed.

Lemma reachable_consistent (s : Session) :
  reachable reparse s -> consistent s.
Proof.
  induction 1 as [markup Hm | s ev s' _ IH Hstep].
  - now apply consistent_load.
  - now apply (consistent_step s s' ev).
Qed.

Lemma run_reachable (evs : list Event) (s s' : Session) :
  reachable reparse s -> run reparse s evs = Some s' ->
  reachable reparse s'.
Proof.
  revert s. induction evs as [|ev evs IH]; intros s Hs Hrun; cbn in Hrun.
  - now inversion Hrun; subst.
  - destruct (step reparse s ev) as [s1|] eqn:E; [|discriminate].
    apply (IH s1); [|exact Hrun]. now apply (reachable_step _ s ev).
Qed.

(** Once the connectivity check has failed with nothing selected, no
    event changes that. *)
Lemma locked_step (s s' : Session) (ev : Event) :
  locked s -> step reparse s ev = Some s' -> locked s'.
Proof.
  intros (Hp & Hf & Hn & Hd) Hstep.
  destruct ev as [w | files | | w | msg]; unfold step in Hstep.
  - rewrite Hp in Hstep. discriminate.
  - rewrite Hd in Hstep. discriminate.
  - destruct (uploadButton_disabled (page s)); [discriminate|].
    rewrite (handleUpload_begin_idle _ Hf) in Hstep.
    inversion Hstep; subst s'. now repeat split.
  - rewrite Hn in Hstep. discriminate.
  - inversion Hstep; subst s'. now repeat split.
Qed.

Lemma locked_run (evs : list Event) (s s' : Session) :
  locked s -> run reparse s evs = Some s' -> locked s'.
Proof.
  revert s. induction evs as [|ev evs IH]; intros s Hs Hrun; cbn in Hrun.
  - now inversion Hrun; subst.
  - destruct (step reparse s ev) as [s1|] eqn:E; [|discriminate].
    apply (IH s1); [|exact Hrun]. now apply (locked_step s s1 ev).
Qed.

(** C8. When the connectivity check fails, the request throwing or the
    response not being 2xx, the handler disables the file input and sets
    the status text to the connection error, whatever the page was
    before. If at that moment no file is selected and no upload is in
    flight, then whatever events follow (selections, clicks, settling
    requests, uncaught errors) the file input stays disabled; and that is
    the case whenever the check settles in a session begun on a freshly
    loaded page. *)
Theorem failed_health_check_locks_input :
  (forall (w : Fetched) (p : Page),
      health_fails w ->
      fileInput_disabled (exec (checkAPIConnection_settle w) p) = true
      /\ statusIndicator_textContent (exec (checkAPIConnection_settle w) p)
         = "Error: Cannot connect to transcription service"
      /\ fileInput_disabled (exec (checkAPIConnection w) p) = true
      /\ statusIndicator_textContent (exec (checkAPIConnection w) p)
         = "Error: Cannot connect to transcription service")
  /\ (forall (s s1 : Session) (w : Fetched),
        health_fails w ->
        step reparse s (HealthSettled w) = Some s1 ->
        fileInput_files (page s) = [] ->
        uploads_in_flight s = 0%nat ->
        fileInput_disabled (page s1) = true
        /\ statusIndicator_textContent (page s1)
           = "Error: Cannot connect to transcription service"
        /\ forall (evs : list Event) (s2 : Session),
             run reparse s1 evs = Some s2 ->
             fileInput_disabled (page s2) = true)
  /\ (forall (s s1 : Session) (w : Fetched),
        reachable reparse s ->
        health_fails w ->
        step reparse s (HealthSettled w) = Some s1 ->
        fileInput_disabled (page s1) = true
        /\ statusIndicator_textContent (page s1)
           = "Error: Cannot connect to transcription service"
        /\ forall (evs : list Event) (s2 : Session),
             run reparse s1 evs = Some s2 ->
             fileInput_disabled (page s2) = true).
Proof.
  assert (Hwrite : forall w p, health_fails w ->
            fileInput_disabled (exec (checkAPIConnection_settle w) p) = true
            /\ statusIndicator_textContent
                 (exec (checkAPIConnection_settle w) p)
               = "Error: Cannot connect to transcription service").
  { intros w p Hw.
    destruct (health_settles w p) as (b & text & log & E & Hfail).
    destruct (Hfail Hw) as [-> ->]. unfold exec. now rewrite E. }
  assert (Hlock : forall s s1 w,
            health_fails w ->
            step reparse s (HealthSettled w) = Some s1 ->
            fileInput_files (page s) = [] ->
            uploads_in_flight s = 0%nat ->
            fileInput_disabled (page s1) = true
            /\ statusIndicator_textContent (page s1)
               = "Error: Cannot connect to transcription service"
            /\ forall evs s2,
                 run reparse s1 evs = Some s2 ->
                 fileInput_disabled (page s2) = true).
  { intros s s1 w Hw Hstep Hf Hn. unfold step in Hstep.
    destruct (health_pending s); [|discriminate].
    destruct (Hwrite w (page s) Hw) as [Hd Ht].
    destruct (health_settles w (page s)) as (b & text & log & E & _).
    inversion Hstep; subst s1; clear Hstep. cbn [page].
    split; [exact Hd|]. split; [exact Ht|].
    intros evs s2 Hrun.
    refine (proj2 (proj2 (proj2 (locked_run evs _ s2 _ Hrun)))).
    unfold locked; cbn [page health_pending uploads_in_flight].
    split; [reflexivity|]. split; [|split; [exact Hn | exact Hd]].
    unfold exec. now rewrite E. }
  split; [|split; [exact Hlock|]].
  - intros w p Hw. destruct (Hwrite w p Hw) as [Hd Ht].
    split; [exact Hd|]. split; [exact Ht|].
    unfold exec. rewrite checkAPIConnection_phases.
    erewrite bind_normal by reflexivity.
    apply (Hwrite w _ Hw).
  - intros s s1 w Hs Hw Hstep.
    destruct (reachable_consistent s Hs) as (Hh & _).
    assert (Hp : health_pending s = true).
    { unfold step in Hstep. now destruct (health_pending s). }
    destruct (Hh Hp) as (Hf & Hn & _).
    now apply (Hlock s s1 w).
Qed.

(** C4, as the script has it. In every reachable state in which the
    selected file is not accepted the upload button is disabled. With no
    file selected it need not be: when an upload settles the selection
    is emptied and the button enabled; a click then sends nothing and
    changes nothing. *)
Theorem submit_disabled_for_invalid_selection :
  forall s : Session,
    reachable reparse s ->
    (forall file rest,
        fileInput_files (page s) = file :: rest ->
        valid file = false ->
        uploadButton_disabled (page s) = true)
    /\ (forall w s',
          step reparse s (UploadSettled w) = Some s' ->
          fileInput_files (page s') = []
          /\ uploadButton_disabled (page s') = false)
    /\ (fileInput_files (page s) = [] ->
        forall s', step reparse s Click = Some s' -> s' = s).
Proof.
  intros s Hs.
  destruct (reachable_consistent s Hs) as (_ & _ & _ & Hinv).
  split; [exact Hinv|]. split.
  - intros w s' Hstep. unfold step in Hstep.
    destruct (uploads_in_flight s); [discriminate|].
    inversion Hstep; subst s'; clear Hstep.
    destruct (handleUpload_settle_released w (page s)) as [q E].
    unfold exec. rewrite E. now split.
  - intros Hf s' Hstep. unfold step in Hstep.
    destruct (uploadButton_disabled (page s)); [discriminate|].
    rewrite (handleUpload_begin_idle _ Hf) in Hstep.
    inversion Hstep. now destruct s.
Qed.

End Properties.

(* ================================================================== *)
(** * The properties on the examples *)
(* ================================================================== *)

Lemma fresh_markup : fresh Example.markup.
Proof. split; reflexivity. Qed.

Lemma after_reachable (evs : list Event) :
  reachable Example.same (Example.after evs).
Proof.
  unfold Example.after.
  destruct (run Example.same (constructor Example.markup) evs)
    as [s|] eqn:E.
  - apply (run_reachable Example.same evs (constructor Example.markup));
      [apply reachable_load, fresh_markup | exact E].
  - apply reachable_load, fresh_markup.
Qed.

(** The example of the specification: test.wav, answered with
    [{success: true, text: "hello", processing_time: 1.2}]. *)
Lemma upload_success_rendered_witness :
  resultsBox_innerHTML
    (exec (handleUpload Example.same Example.answered)
       (Example.selected Example.test_wav))
  = prepended 12
      (result_entry "10:15:00 AM" "hello" "1.2" "test.wav") EmptyString
  /\ Str.Includes
       (result_entry "10:15:00 AM" "hello" "1.2" "test.wav") "hello"
  /\ Str.Includes
       (result_entry "10:15:00 AM" "hello" "1.2" "test.wav") "1.2"
  /\ Str.Includes
       (result_entry "10:15:00 AM" "hello" "1.2" "test.wav") "test.wav"
  /\ statusIndicator_textContent
       (exec (handleUpload Example.same Example.answered)
          (Example.selected Example.test_wav))
     = "Transcription complete".
Proof.
  apply (upload_success_rendered Example.same Example.answered
           (Example.selected Example.test_wav) Example.test_wav []
           (Build_Response 200 "OK" (Json (JsonObject Example.transcript)))
           Example.transcript (Js.Str "hello")
           (Js.Number Example.seconds));
    reflexivity.
Defined.


Lemma upload_always_releases_controls_witness :
  outcome (handleUpload Example.same Example.refused)
    (Example.selected Example.test_wav) = Normal tt
  /\ progressSection_display
       (exec (handleUpload Example.same Example.refused)
          (Example.selected Example.test_wav)) = "none"
  /\ fileInput_disabled
       (exec (handleUpload Example.same Example.refused)
          (Example.selected Example.test_wav)) = false
  /\ uploadButton_disabled
       (exec (handleUpload Example.same Example.refused)
          (Example.selected Example.test_wav)) = false
  /\ fileInput_files
       (exec (handleUpload Example.same Example.refused)
          (Example.selected Example.test_wav)) = [].
Proof.
  apply (upload_always_releases_controls Example.same Example.refused
           (Example.selected Example.test_wav) Example.test_wav []).
  reflexivity.
Defined.

(** A WAV file of one byte more than 50MB. *)
Lemma invalid_selection_blocks_upload_witness :
  uploadButton_disabled
    (exec handleFileSelection
       (Example.selected (Example.wav "long.wav" 52428801))) = true
  /\ statusIndicator_textContent
       (exec handleFileSelection
          (Example.selected (Example.wav "long.wav" 52428801)))
     = "Error: File size exceeds 50MB limit"
  /\ network
       (exec handleFileSelection
          (Example.selected (Example.wav "long.wav" 52428801)))
     = network (Example.selected (Example.wav "long.wav" 52428801)).
Proof.
  destruct (invalid_selection_blocks_upload Example.same
              (Example.selected (Example.wav "long.wav" 52428801))
              (Example.wav "long.wav" 52428801) [])
    as (Hb & _ & Hs & Hn & _).
  - reflexivity.
  - right. reflexivity.
  - split; [exact Hb|]. split; [apply Hs; reflexivity | exact Hn].
Defined.

(** A WAV file of exactly 50MB is accepted. *)
Lemma valid_selection_enables_upload_witness :
  uploadButton_disabled
    (exec handleFileSelection
       (Example.selected (Example.wav "full.wav" 52428800))) = false
  /\ statusIndicator_textContent
       (exec handleFileSelection
          (Example.selected (Example.wav "full.wav" 52428800)))
     = "Selected: full.wav (50.00MB)".
Proof.
  destruct (valid_selection_enables_upload
              (Example.selected (Example.wav "full.wav" 52428800))
              (Example.wav "full.wav" 52428800) [])
    as (Hb & Hs & _).
  - reflexivity.
  - reflexivity.
  - vm_compute. discriminate.
  - split; [exact Hb | exact Hs].
Defined.

(** C6, as the specification words it, fails: for test.wav of one
    megabyte the status text is "Selected: test.wav (1.00MB)", which is
    not "Selected: test.wav (1.00)MB". *)
Lemma selected_status_keeps_unit_inside :
  statusIndicator_textContent
    (exec handleFileSelection (Example.selected Example.test_wav))
  = "Selected: test.wav (1.00MB)"
  /\ statusIndicator_textContent
       (exec handleFileSelection (Example.selected Example.test_wav))
     <> "Selected: " ++ File.name Example.test_wav ++ " ("
        ++ Num.toFixed (megabytes (File.size Example.test_wav)) 2
        ++ ")MB".
Proof. split; [reflexivity | vm_compute; discriminate]. Qed.

(** A WAV file of 500 bytes. *)
Lemma valid_selection_shows_megabytes_witness :
  statusIndicator_textContent
    (exec handleFileSelection
       (Example.selected (Example.wav "clip.wav" 500)))
  = "Selected: clip.wav (0.00MB)".
Proof.
  destruct (valid_selection_shows_megabytes
              (Example.selected (Example.wav "clip.wav" 500))
              (Example.wav "clip.wav" 500) [])
    as (_ & Hs & _).
  - reflexivity.
  - reflexivity.
  - apply Hs. vm_compute. discriminate.
Defined.

(** C7, as the specification words it, fails: a valid file of 500 bytes,
    which [formatFileSize] would render as 500 Bytes, is shown as
    0.00MB, and one of 2048 bytes, 2 KB for [formatFileSize], likewise. *)
Lemma selected_size_not_human_readable :
  (formatFileSize 500 = "500 Bytes"
   /\ statusIndicator_textContent
        (exec handleFileSelection
           (Example.selected (Example.wav "clip.wav" 500)))
      = "Selected: clip.wav (0.00MB)"
   /\ ~ Str.Includes
          (statusIndicator_textContent
             (exec handleFileSelection
                (Example.selected (Example.wav "clip.wav" 500))))
          "Bytes")
  /\ (formatFileSize 2048 = "2 KB"
      /\ statusIndicator_textContent
           (exec handleFileSelection
              (Example.selected (Example.wav "clip.wav" 2048)))
         = "Selected: clip.wav (0.00MB)"
      /\ ~ Str.Includes
             (statusIndicator_textContent
                (exec handleFileSelection
                   (Example.selected (Example.wav "clip.wav" 2048))))
             "KB").
Proof.
  split; (split; [vm_compute; reflexivity|]); (split; [reflexivity|]);
    intros H; apply includesb_Includes in H; vm_compute in H;
    discriminate.
Qed.

(** C9, as the specification words it, fails: for 575 bytes out of 1000
    the percentage [100 * 575 / 1000] is 57.5 and rounds to 58, while
    the quotient 0.575 times 100 is 57.49999999999999 as a Number, and
    the progress text reads "Uploading: 57%". *)
Lemma progress_text_below_exact_percentage :
  nearest_integer (inject_Z 100 * inject_Z 575 / inject_Z 1000) = 58
  /\ progressFill_width
       (exec (onUploadProgress Example.partway) Example.markup)
     = "57.49999999999999%"
  /\ progressText_textContent
       (exec (onUploadProgress Example.partway) Example.markup)
     = "Uploading: 57%"
  /\ ~ Str.Includes
         (progressText_textContent
            (exec (onUploadProgress Example.partway) Example.markup))
         "58".
Proof.
  split; [reflexivity|].
  split; [vm_compute; reflexivity|].
  split; [vm_compute; reflexivity|].
  intros H; apply includesb_Includes in H; vm_compute in H; discriminate.
Qed.

(** The health request fails: on a page whose file input was enabled,
    and in the session of the fresh page. *)
Lemma failed_health_check_locks_input_witness :
  fileInput_disabled
    (exec (checkAPIConnection_settle (Rejected "Failed to fetch"))
       (set_fileInput_disabled false Example.markup)) = true
  /\ (fileInput_disabled
        (page (Example.after [Example.unreachable_service])) = true
      /\ statusIndicator_textContent
           (page (Example.after [Example.unreachable_service]))
         = "Error: Cannot connect to transcription service"
      /\ forall (evs : list Event) (s2 : Session),
           run Example.same (Example.after [Example.unreachable_service])
             evs = Some s2 ->
           fileInput_disabled (page s2) = true).
Proof.
  split.
  - apply (proj1 (failed_health_check_locks_input Example.same)
             (Rejected "Failed to fetch")
             (set_fileInput_disabled false Example.markup)).
    exact I.
  - apply (proj1 (proj2 (failed_health_check_locks_input Example.same))
             (constructor Example.markup)
             (Example.after [Example.unreachable_service])
             (Rejected "Failed to fetch")).
    + exact I.
    + reflexivity.
    + reflexivity.
    + reflexivity.
Defined.

(** An MP3 file selected once the service has answered. *)
Lemma submit_disabled_for_invalid_selection_witness :
  uploadButton_disabled
    (page (Example.after [Example.healthy; Change [Example.mp3]])) = true.
Proof.
  destruct (submit_disabled_for_invalid_selection Example.same
              (Example.after [Example.healthy; Change [Example.mp3]]))
    as (H & _).
  - apply after_reachable.
  - apply (H Example.mp3 []); reflexivity.
Defined.

(** C4, as the specification words it, fails: after the service has
    answered, test.wav has been selected, the button clicked and the
    upload answered, no file is selected and the button is enabled. *)
Lemma idle_with_submit_enabled :
  ~ (forall s : Session,
        reachable Example.same s -> idle s ->
        uploadButton_disabled (page s) = true).
Proof.
  intros H.
  specialize (H (Example.after [Example.healthy;
                                Change [Example.test_wav];
                                Click;
                                UploadSettled Example.answered])
                (after_reachable _) I).
  vm_compute in H. discriminate.
Qed.

(** An error text and a transcription that are markup. *)
Lemma displayResults_interpolates_verbatim_witness :
  (exists before after, forall s t pt,
      resultsBox_innerHTML
        (exec (displayResults Example.same "10:15:00 AM"
                 (JsonObject {| success := Js.Bool false; text := t;
                                processing_time := pt;
                                error := Js.Str s |}))
           (Example.selected Example.test_wav))
      = before ++ s ++ after)
  /\ (exists before after, forall s,
         resultsBox_innerHTML
           (exec (displayResults Example.same "10:15:00 AM"
                    (JsonObject {| success := Js.Bool true;
                                   text := Js.Str s;
                                   processing_time := Js.Number 2%float;
                                   error := Js.Undefined |}))
              (Example.selected Example.test_wav))
         = before ++ s ++ after).
Proof.
  split.
  - apply (proj1 (displayResults_interpolates_verbatim Example.same
                    "10:15:00 AM" (Example.selected Example.test_wav)
                    (Js.Bool false))).
    reflexivity.
  - apply (proj2 (displayResults_interpolates_verbatim Example.same
                    "10:15:00 AM" (Example.selected Example.test_wav)
                    (Js.Bool true))).
    + reflexivity.
    + discriminate.
Defined.

(** The upload of test.wav with the notification of 575 bytes out of
    1000 on the way. *)
Lemma progress_notification_shown_witness :
  (progressText_textContent
     (exec (handleUpload Example.same Example.reported)
        (Example.selected Example.test_wav))
   = "Uploading: 57%"
   /\ progressFill_width
        (exec (handleUpload Example.same Example.reported)
           (Example.selected Example.test_wav))
      = "57.49999999999999%")
  /\ (progressText_textContent
        (deliver [Example.partway; Sample.stalled] Example.markup)
      = "Uploading: NaN%"
      /\ progressFill_width
           (deliver [Example.partway; Sample.stalled] Example.markup)
         = "57.49999999999999%").
Proof.
  split.
  - destruct (proj2 (proj2 (proj2
                (progress_notification_shown Example.same []
                   Example.partway (Example.selected Example.test_wav))))
                Example.reported Example.test_wav [] eq_refl eq_refl)
      as [Ht Hw].
    split; [exact Ht | apply Hw; reflexivity].
  - destruct (progress_notification_shown Example.same [Example.partway]
                Sample.stalled Example.markup) as (Ht & _ & Hdrop & _).
    split; [exact Ht|].
    apply (proj2 (Hdrop eq_refl)).
Defined.

(* ================================================================== *)
(** * Further properties of the widget *)
(* ================================================================== *)

(** ** Components a statement leaves alone *)

Lemma preserves_ret {A X} (proj : Page -> X) (a : A) :
  preserves proj (ret a).
Proof. intros p. reflexivity. Qed.

Lemma preserves_throw {A X} (proj : Page -> X) (e : Js.Error) :
  preserves proj (@throw A e).
Proof. intros p. reflexivity. Qed.

Lemma preserves_gets {A X} (proj : Page -> X) (f : Page -> A) :
  preserves proj (gets f).
Proof. intros p. reflexivity. Qed.

Lemma preserves_modify {X} (proj : Page -> X) (f : Page -> Page) :
  (forall p, proj (f p) = proj p) -> preserves proj (modify f).
Proof. intros H p. apply H. Qed.

Lemma preserves_bind {A B X} (proj : Page -> X) (m : M A) (k : A -> M B) :
  preserves proj m -> (forall a, preserves proj (k a)) ->
  preserves proj (bind m k).
Proof.
  intros Hm Hk p. specialize (Hm p). unfold exec, bind in *.
  destruct (m p) as [p' [a|e]]; cbn [fst] in *.
  - rewrite <- Hm. apply (Hk a p').
  - exact Hm.
Qed.

Lemma preserves_try_catch {A X} (proj : Page -> X)
    (b : M A) (h : Js.Error -> M A) :
  preserves proj b -> (forall e, preserves proj (h e)) ->
  preserves proj (try_catch b h).
Proof.
  intros Hb Hh p. specialize (Hb p). unfold exec, try_catch in *.
  destruct (b p) as [p' [a|e]]; cbn [fst] in *.
  - exact Hb.
  - rewrite <- Hb. apply (Hh e p').
Qed.

Lemma preserves_forEach {A X} (proj : Page -> X)
    (l : list A) (f : A -> M unit) :
  (forall a, preserves proj (f a)) -> preserves proj (forEach l f).
Proof.
  intros Hf. induction l as [|a l IH].
  - apply preserves_ret.
  - apply preserves_bind; [apply Hf | intros _; exact IH].
Qed.

Ltac preserves_step :=
  first
    [ apply preserves_ret | apply preserves_throw | apply preserves_gets
    | apply preserves_modify; intros; reflexivity
    | apply preserves_forEach; intros
    | apply preserves_bind; [|intros]
    | apply preserves_try_catch; [|intros]
    | match goal with
      | |- preserves _ (match ?x with _ => _ end) => destruct x
      end ].

Lemma window_onerror_preserves {X} (proj : Page -> X) (msg : string) :
  (forall v p, proj (set_console v p) = proj p) ->
  (forall v p, proj (set_statusIndicator_textContent v p) = proj p) ->
  preserves proj (window_onerror msg).
Proof.
  intros Hc Hs p. unfold exec, window_onerror, console_error; cbn.
  now rewrite Hs, Hc.
Qed.

Section Further.

Variable reparse : string -> string.

(** ** The settlement of an upload, case by case *)

Lemma displayResults_null timestamp (p : Page) :
  displayResults reparse timestamp JsonNull p
  = (p, Throw {| Js.message :=
                  "Cannot read properties of null (reading 'success')" |}).
Proof. reflexivity. Qed.

Lemma displayResults_unnamed timestamp (r : Result) (p : Page) :
  Js.ToBoolean (success r) = true ->
  fileInput_files p = [] ->
  displayResults reparse timestamp (JsonObject r) p
  = (p, Throw {| Js.message :=
                  "Cannot read properties of undefined (reading 'name')" |}).
Proof.
  intros H Hf.
  unfold displayResults, properties, first_file_name, bind, ret, gets.
  rewrite H. cbn [negb]. cbv beta iota. rewrite Hf. reflexivity.
Qed.

(** [handleUpload_settle] computes [settled_page]. *)
Lemma settle_verdict (w : UploadWorld) (p : Page) :
  handleUpload_settle reparse w p = (settled_page reparse w p, Normal tt).
Proof.
  destruct (deliver_frame (notifications w) p)
    as (Hfiles & _ & _ & _ & Hhtml & _ & _ & Hcon).
  unfold settled_page, verdict. rewrite <- Hhtml, <- Hcon, <- Hfiles.
  set (q := deliver (notifications w) p).
  unfold handleUpload_settle.
  eapply try_finally_runs; [|reflexivity].
  destruct (fetched w) as [why | response].
  { erewrite try_catch_throw; [apply catch_block|].
    erewrite bind_throw; [reflexivity|].
    now erewrite bind_normal by apply forEach_onUploadProgress. }
  assert (Hq : (forEach (notifications w) onUploadProgress ;;
                await (Resolved response)) p
               = (q, Normal response))
    by now erewrite bind_normal by apply forEach_onUploadProgress.
  destruct (ok response) eqn:Hok.
  2:{ erewrite try_catch_throw; [apply catch_block|].
      erewrite bind_normal by apply Hq.
      rewrite Hok. cbn [negb]. cbv iota.
      now erewrite bind_throw. }
  destruct (body response) as [why | [|r]] eqn:Hb.
  - erewrite try_catch_throw; [apply catch_block|].
    erewrite bind_normal by apply Hq.
    rewrite Hok. cbn [negb]. cbv iota.
    erewrite bind_normal by reflexivity.
    unfold json. rewrite Hb. now erewrite bind_throw.
  - erewrite try_catch_throw; [apply catch_block|].
    erewrite bind_normal by apply Hq.
    rewrite Hok. cbn [negb]. cbv iota.
    erewrite bind_normal by reflexivity.
    unfold json. rewrite Hb.
    erewrite bind_normal by reflexivity.
    apply displayResults_null.
  - destruct (Js.ToBoolean (success r)) eqn:Hs;
      [destruct (fileInput_files q) as [|file rest] eqn:Hf|].
    + erewrite try_catch_throw; [apply catch_block|].
      erewrite bind_normal by apply Hq.
      rewrite Hok. cbn [negb]. cbv iota.
      erewrite bind_normal by reflexivity.
      unfold json. rewrite Hb.
      erewrite bind_normal by reflexivity.
      now apply displayResults_unnamed.
    + apply try_catch_normal.
      erewrite bind_normal by apply Hq.
      rewrite Hok. cbn [negb]. cbv iota.
      erewrite bind_normal by reflexivity.
      unfold json. rewrite Hb.
      erewrite bind_normal by reflexivity.
      now apply (displayResults_success reparse _ r q file rest).
    + apply try_catch_normal.
      erewrite bind_normal by apply Hq.
      rewrite Hok. cbn [negb]. cbv iota.
      erewrite bind_normal by reflexivity.
      unfold json. rewrite Hb.
      erewrite bind_normal by reflexivity.
      now apply displayResults_failure.
Qed.

Lemma handleUpload_settled (w : UploadWorld) (p : Page) file rest :
  fileInput_files p = file :: rest ->
  handleUpload reparse w p
  = (settled_page reparse w (begun file p), Normal tt).
Proof.
  intros Hf. rewrite (handleUpload_started reparse w p file rest Hf).
  apply settle_verdict.
Qed.

(** ** What is rendered *)

(** X1. A response with a 2xx status whose body reports a failure
    ([success] falsy) is shown as an error entry holding the [error]
    field, stamped with the time read in the [try] block; the status
    text is not touched and still reads "Uploading and processing..."
    when the upload is over. *)
Theorem reported_failure_leaves_status :
  forall (w : UploadWorld) (p : Page) (file : File.t) (rest : list File.t)
         (response : Response) (r : Result),
    fileInput_files p = file :: rest ->
    fetched w = Resolved response ->
    ok response = true ->
    body response = Json (JsonObject r) ->
    Js.ToBoolean (success r) = false ->
    let p' := exec (handleUpload reparse w) p in
    resultsBox_innerHTML p'
    = prepended 16 (error_entry (clock_try w) (Js.ToString (error r)))
        (reparse (resultsBox_innerHTML p))
    /\ statusIndicator_textContent p' = "Uploading and processing..."
    /\ console p' = console p.
Proof.
  intros w p file rest response r Hf Hw Hok Hb Hs p'. subst p'.
  unfold exec. rewrite (handleUpload_settled w p file rest Hf).
  destruct (deliver_frame (notifications w) (begun file p))
    as (_ & _ & _ & Hst & _ & _ & _ & Hcon).
  unfold settled_page, verdict. rewrite Hw, Hok, Hb, Hs.
  cbn -[deliver begun]. rewrite Hst, Hcon. now repeat split.
Qed.

(** X2. A response with a 2xx status whose body cannot be used, because
    it is not JSON or because it is [null], is handled like a failed
    request: an error entry with the message of the exception, and the
    status text "Error: " followed by that message. *)
Theorem unusable_body_reported_as_error :
  forall (w : UploadWorld) (p : Page) (file : File.t) (rest : list File.t)
         (response : Response) (msg : string),
    fileInput_files p = file :: rest ->
    fetched w = Resolved response ->
    ok response = true ->
    body response = InvalidJson msg
    \/ (body response = Json JsonNull
        /\ msg = "Cannot read properties of null (reading 'success')") ->
    let p' := exec (handleUpload reparse w) p in
    resultsBox_innerHTML p'
    = prepended 16 (error_entry (clock_catch w) msg)
        (reparse (resultsBox_innerHTML p))
    /\ statusIndicator_textContent p' = "Error: " ++ msg
    /\ exec (handleUpload reparse w) p
       = exec (handleUpload reparse (with_fetched (Rejected msg) w)) p.
Proof.
  intros w p file rest response msg Hf Hw Hok Hb p'. subst p'.
  unfold exec. rewrite !(handleUpload_settled _ p file rest Hf).
  unfold settled_page, verdict. rewrite Hw, Hok.
  destruct Hb as [Hb | [Hb ->]]; rewrite Hb; cbn -[deliver begun];
    now repeat split.
Qed.

(** X3. The progress notifications of an upload bear on nothing but the
    progress bar and the progress text: with or without them the upload
    leaves the same selection, controls, status text, results, requests
    and console. *)
Theorem notifications_touch_progress_only :
  forall (w : UploadWorld) (p : Page),
    let p' := exec (handleUpload reparse w) p in
    let p0 := exec (handleUpload reparse (quiet w)) p in
    fileInput_files p' = fileInput_files p0
    /\ fileInput_disabled p' = fileInput_disabled p0
    /\ uploadButton_disabled p' = uploadButton_disabled p0
    /\ statusIndicator_textContent p' = statusIndicator_textContent p0
    /\ resultsBox_innerHTML p' = resultsBox_innerHTML p0
    /\ progressSection_display p' = progressSection_display p0
    /\ network p' = network p0
    /\ console p' = console p0.
Proof.
  intros w p p' p0. subst p' p0. unfold exec.
  destruct (fileInput_files p) as [|file rest] eqn:Hf.
  - rewrite !handleUpload_idle by exact Hf. now repeat split.
  - rewrite !(handleUpload_settled _ p file rest Hf).
    destruct (deliver_frame (notifications w) (begun file p))
      as (H1 & H2 & H3 & H4 & H5 & H6 & H7 & H8).
    unfold settled_page.
    change (verdict (quiet w)) with (verdict w).
    destruct (verdict w (fileInput_files (begun file p)));
      cbn -[deliver begun]; rewrite ?H1, ?H2, ?H3, ?H4, ?H5, ?H6, ?H7, ?H8;
      now repeat split.
Qed.

(** ** The event loop *)

Lemma settled_page_frame (w : UploadWorld) (p : Page) :
  network (settled_page reparse w p) = network p
  /\ progressSection_display (settled_page reparse w p) = "none"
  /\ entry_prepended (resultsBox_innerHTML (settled_page reparse w p))
       (reparse (resultsBox_innerHTML p)).
Proof.
  destruct (deliver_frame (notifications w) p)
    as (_ & _ & _ & _ & _ & _ & Hn & _).
  unfold settled_page, entry_prepended.
  destruct (verdict w (fileInput_files p)) as [r file | r | e];
    cbn -[deliver]; rewrite Hn; (split; [reflexivity|]);
    (split; [reflexivity|]).
  - left. now do 4 eexists.
  - right. now do 2 eexists.
  - right. now do 2 eexists.
Qed.

Lemma handleFileSelection_keeps_results (p : Page) :
  resultsBox_innerHTML (exec handleFileSelection p) = resultsBox_innerHTML p
  /\ progressSection_display (exec handleFileSelection p)
     = progressSection_display p.
Proof.
  assert (H1 : preserves resultsBox_innerHTML handleFileSelection)
    by (unfold handleFileSelection; repeat preserves_step).
  assert (H2 : preserves progressSection_display handleFileSelection)
    by (unfold handleFileSelection; repeat preserves_step).
  split; [apply H1 | apply H2].
Qed.

(** X4. The results log only grows: an upload that settles puts exactly
    one entry, a transcription or an error, in front of what the box
    held, whatever the response was; no other event changes the box. *)
Theorem results_log_only_grows :
  forall (s s' : Session) (ev : Event),
    step reparse s ev = Some s' ->
    match ev with
    | UploadSettled _ =>
        entry_prepended (resultsBox_innerHTML (page s'))
          (reparse (resultsBox_innerHTML (page s)))
    | _ => resultsBox_innerHTML (page s') = resultsBox_innerHTML (page s)
    end.
Proof.
  intros s s' ev Hstep.
  destruct ev as [w | files | | w | msg]; unfold step in Hstep.
  - destruct (health_pending s); [|discriminate].
    destruct (health_settles w (page s)) as (b & text & log & E & _).
    inversion Hstep; subst s'. unfold exec. now rewrite E.
  - destruct (fileInput_disabled (page s)); [discriminate|].
    inversion Hstep; subst s'. cbn [page].
    now rewrite (proj1 (handleFileSelection_keeps_results _)).
  - destruct (uploadButton_disabled (page s)); [discriminate|].
    destruct (fileInput_files (page s)) as [|file rest] eqn:Ef.
    + rewrite (handleUpload_begin_idle _ Ef) in Hstep.
      now inversion Hstep; subst s'.
    + rewrite (handleUpload_begin_started _ file rest Ef) in Hstep.
      now inversion Hstep; subst s'.
  - destruct (uploads_in_flight s); [discriminate|].
    inversion Hstep; subst s'. unfold exec. rewrite settle_verdict.
    apply settled_page_frame.
  - now inversion Hstep; subst s'.
Qed.

Lemma busy_shows_progress (s : Session) :
  reachable reparse s ->
  uploads_in_flight s = 1%nat ->
  progressSection_display (page s) = "block".
Proof.
  induction 1 as [markup Hm | s ev s' Hs IH Hstep]; [discriminate|].
  destruct (reachable_consistent reparse s Hs) as (Hh & Hle & Hup & _).
  intros Hn.
  destruct ev as [w | files | | w | msg]; unfold step in Hstep.
  - destruct (health_pending s); [|discriminate].
    destruct (Hh eq_refl) as (_ & H0 & _).
    inversion Hstep; subst s'. cbn in Hn. congruence.
  - destruct (fileInput_disabled (page s)) eqn:Ed; [discriminate|].
    inversion Hstep; subst s'. cbn in Hn.
    destruct (Hup Hn) as (? & _). congruence.
  - destruct (uploadButton_disabled (page s)); [discriminate|].
    destruct (fileInput_files (page s)) as [|file rest] eqn:Ef.
    + rewrite (handleUpload_begin_idle _ Ef) in Hstep.
      inversion Hstep; subst s'. now apply IH.
    + rewrite (handleUpload_begin_started _ file rest Ef) in Hstep.
      now inversion Hstep; subst s'.
  - destruct (uploads_in_flight s) as [|n]; [discriminate|].
    inversion Hstep; subst s'. cbn in Hn. lia.
  - inversion Hstep; subst s'. now apply IH.
Qed.

(** X5. At most one upload is in flight at any time; while it is, the
    health check has succeeded, the file is still selected, the progress
    section is displayed, and neither a click on the button nor a change
    of the selection can be dispatched. *)
Theorem one_upload_at_a_time :
  forall s : Session,
    reachable reparse s ->
    (uploads_in_flight s <= 1)%nat
    /\ (uploads_in_flight s = 1%nat ->
        health_pending s = false
        /\ fileInput_files (page s) <> []
        /\ progressSection_display (page s) = "block"
        /\ step reparse s Click = None
        /\ forall files, step reparse s (Change files) = None).
Proof.
  intros s Hs.
  destruct (reachable_consistent reparse s Hs) as (Hh & Hle & Hup & _).
  split; [exact Hle|]. intros Hn.
  destruct (Hup Hn) as (Hd & Hb & Hf).
  split; [|split; [exact Hf|split; [now apply busy_shows_progress|split]]].
  - destruct (health_pending s); [|reflexivity].
    destruct (Hh eq_refl) as (_ & ? & _). congruence.
  - unfold step. now rewrite Hb.
  - intros files. unfold step. now rewrite Hd.
Qed.

Lemma locked_step_silent (s s' : Session) (ev : Event) :
  locked s -> step reparse s ev = Some s' ->
  network (page s') = network (page s)
  /\ resultsBox_innerHTML (page s') = resultsBox_innerHTML (page s).
Proof.
  intros (Hp & Hf & Hn & Hd) Hstep.
  destruct ev as [w | files | | w | msg]; unfold step in Hstep.
  - rewrite Hp in Hstep. discriminate.
  - rewrite Hd in Hstep. discriminate.
  - destruct (uploadButton_disabled (page s)); [discriminate|].
    rewrite (handleUpload_begin_idle _ Hf) in Hstep.
    now inversion Hstep; subst s'.
  - rewrite Hn in Hstep. discriminate.
  - now inversion Hstep; subst s'.
Qed.

(** X6. Once the connectivity check has failed, the widget never sends
    a request again and never writes to the results box, whatever the
    user does: no file can be selected and no upload started. *)
Theorem failed_health_check_sends_nothing :
  forall (s s1 : Session) (w : Fetched),
    reachable reparse s ->
    health_fails w ->
    step reparse s (HealthSettled w) = Some s1 ->
    forall (evs : list Event) (s2 : Session),
      run reparse s1 evs = Some s2 ->
      network (page s2) = network (page s1)
      /\ resultsBox_innerHTML (page s2) = resultsBox_innerHTML (page s1)
      /\ fileInput_files (page s2) = []
      /\ uploads_in_flight s2 = 0%nat.
Proof.
  intros s s1 w Hs Hw Hstep.
  assert (Hl : locked s1).
  { destruct (reachable_consistent reparse s Hs) as (Hh & _).
    unfold step in Hstep.
    destruct (health_pending s) eqn:Ep; [|discriminate].
    destruct (Hh eq_refl) as (Hf & Hn & _).
    destruct (health_settles w (page s)) as (b & text & log & E & Hfail).
    destruct (Hfail Hw) as [-> ->].
    inversion Hstep; subst s1. unfold exec. rewrite E.
    now repeat split. }
  clear Hstep. intros evs. revert s1 Hl.
  induction evs as [|ev evs IH]; intros s1 Hl s2 Hrun; cbn in Hrun.
  - inversion Hrun; subst s2. destruct Hl as (_ & ? & ? & _).
    now repeat split.
  - destruct (step reparse s1 ev) as [s1'|] eqn:E; [|discriminate].
    destruct (locked_step_silent s1 s1' ev Hl E) as [<- <-].
    apply IH; [|exact Hrun]. now apply (locked_step reparse s1 s1' ev).
Qed.

Lemma step_sends (s s' : Session) (ev : Event) :
  consistent s -> step reparse s ev = Some s' ->
  network (page s') = network (page s)
  \/ exists file,
       valid file = true
       /\ network (page s') = (network (page s) ++ [upload_request file])%list.
Proof.
  intros (_ & _ & _ & Hinv) Hstep.
  destruct ev as [w | files | | w | msg]; unfold step in Hstep.
  - destruct (health_pending s); [|discriminate].
    destruct (health_settles w (page s)) as (b & text & log & E & _).
    inversion Hstep; subst s'. unfold exec. rewrite E. now left.
  - destruct (fileInput_disabled (page s)); [discriminate|].
    inversion Hstep; subst s'. left. cbn [page].
    now rewrite (proj2 (proj2 (handleFileSelection_frame _))).
  - destruct (uploadButton_disabled (page s)) eqn:Eb; [discriminate|].
    destruct (fileInput_files (page s)) as [|file rest] eqn:Ef.
    + rewrite (handleUpload_begin_idle _ Ef) in Hstep.
      inversion Hstep; subst s'. now left.
    + rewrite (handleUpload_begin_started _ file rest Ef) in Hstep.
      inversion Hstep; subst s'. right. exists file. split; [|reflexivity].
      destruct (valid file) eqn:Ev; [reflexivity|].
      specialize (Hinv file rest eq_refl Ev). congruence.
  - destruct (uploads_in_flight s); [discriminate|].
    inversion Hstep; subst s'. left. unfold exec. rewrite settle_verdict.
    apply settled_page_frame.
  - inversion Hstep; subst s'. now left.
Qed.

Lemma run_sends (evs : list Event) (s s' : Session) base files :
  consistent s ->
  network (page s) = sent base files ->
  Forall (fun f => valid f = true) files ->
  run reparse s evs = Some s' ->
  exists files',
    network (page s') = sent base files'
    /\ Forall (fun f => valid f = true) files'.
Proof.
  revert s files.
  induction evs as [|ev evs IH]; intros s files Hc Hn Hv Hrun;
    cbn in Hrun.
  - inversion Hrun; subst s'. now exists files.
  - destruct (step reparse s ev) as [s1|] eqn:E; [|discriminate].
    pose proof (consistent_step reparse s s1 ev Hc E) as Hc1.
    destruct (step_sends s s1 ev Hc E) as [Hs | (file & Hfile & Hs)].
    + apply (IH s1 files); auto. congruence.
    + apply (IH s1 (files ++ [file])%list); auto.
      * rewrite Hs, Hn. unfold sent.
        rewrite map_app, <- app_assoc. reflexivity.
      * apply Forall_app. split; [exact Hv|]. now constructor.
Qed.

(** X7. All the widget ever sends after the page has loaded is the
    health request, once, and then upload requests, each a POST of one
    accepted file (audio/wav, at most 50MB) under the field "audio"; a
    file that failed validation is never sent. *)
Theorem only_valid_files_are_sent :
  forall (markup : Page) (evs : list Event) (s : Session),
    fresh markup ->
    run reparse (constructor markup) evs = Some s ->
    exists files,
      network (page s) = sent (network markup) files
      /\ Forall (fun f => valid f = true) files.
Proof.
  intros markup evs s Hm Hrun.
  apply (run_sends evs (constructor markup) s (network markup) []).
  - now apply consistent_load.
  - reflexivity.
  - constructor.
  - exact Hrun.
Qed.

Lemma step_health_ok (s : Session) (response : Response) :
  health_pending s = true -> ok response = true ->
  step reparse s (HealthSettled (Resolved response))
  = Some {| page := set_fileInput_disabled false
                      (set_statusIndicator_textContent
                         "Ready to process audio files" (page s));
            health_pending := false;
            uploads_in_flight := uploads_in_flight s |}.
Proof.
  intros Hp Hok. unfold step. rewrite Hp. do 2 f_equal.
  unfold exec, checkAPIConnection_settle.
  erewrite try_catch_normal; [reflexivity|].
  erewrite bind_normal by reflexivity. now rewrite Hok.
Qed.

Lemma step_change_valid (s : Session) file rest :
  fileInput_disabled (page s) = false -> valid file = true ->
  step reparse s (Change (file :: rest))
  = Some {| page := fst (handleFileSelection
                           (set_fileInput_files (file :: rest) (page s)));
            health_pending := health_pending s;
            uploads_in_flight := uploads_in_flight s |}.
Proof. intros Hd _. unfold step. now rewrite Hd. Qed.

Lemma step_click_started (s : Session) file rest :
  uploadButton_disabled (page s) = false ->
  fileInput_files (page s) = file :: rest ->
  step reparse s Click
  = Some {| page := begun file (page s);
            health_pending := health_pending s;
            uploads_in_flight := S (uploads_in_flight s) |}.
Proof.
  intros Hb Hf. unfold step. rewrite Hb.
  now rewrite (handleUpload_begin_started _ file rest Hf).
Qed.

Lemma step_settled (s : Session) (n : nat) (w : UploadWorld) :
  uploads_in_flight s = S n ->
  step reparse s (UploadSettled w)
  = Some {| page := settled_page reparse w (page s);
            health_pending := health_pending s;
            uploads_in_flight := n |}.
Proof.
  intros Hn. unfold step. rewrite Hn. unfold exec.
  now rewrite settle_verdict.
Qed.

(** X8. The controls never lock a working widget out: after the page
    has loaded, once the health check has succeeded, any accepted file
    can be selected, the button clicked and the request settled; one
    upload request for that file has then been sent, an entry has been
    added to the results, and the widget is back with both controls
    enabled and nothing selected or in flight. *)
Theorem healthy_widget_uploads :
  forall (markup : Page) (file : File.t) (response : Response)
         (w : UploadWorld),
    valid file = true ->
    ok response = true ->
    exists s,
      run reparse (constructor markup)
        [HealthSettled (Resolved response); Change [file]; Click;
         UploadSettled w] = Some s
      /\ network (page s) = sent (network markup) [file]
      /\ entry_prepended (resultsBox_innerHTML (page s))
           (reparse (resultsBox_innerHTML markup))
      /\ fileInput_files (page s) = []
      /\ fileInput_disabled (page s) = false
      /\ uploadButton_disabled (page s) = false
      /\ uploads_in_flight s = 0%nat.
Proof.
  intros markup file response w Hv Hok.
  cbn [run]. rewrite step_health_ok by (reflexivity || exact Hok).
  rewrite (step_change_valid _ file []) by (reflexivity || exact Hv).
  erewrite (select_valid _ file []); [|reflexivity|exact Hv]. cbn [fst].
  rewrite (step_click_started _ file []) by reflexivity.
  erewrite step_settled by reflexivity.
  eexists. split; [reflexivity|]. cbn [page uploads_in_flight].
  match goal with
  | |- context [settled_page reparse w ?q] =>
      destruct (settled_page_frame w q) as (Hn & _ & He)
  end.
  rewrite Hn. split; [|split; [exact He | now repeat split]].
  unfold sent. cbn. now rewrite <- app_assoc.
Qed.

(** X9. In every reachable session the answer to the pending upload is
    rendered against the file that is still selected: when the response
    is 2xx with a truthy [success], a file is selected, its name is the
    one in the new entry, and the status text is "Transcription
    complete"; the lookup of the file name cannot fail. *)
Theorem answered_upload_names_selected_file :
  forall (s s' : Session) (w : UploadWorld) (response : Response)
         (r : Result),
    reachable reparse s ->
    step reparse s (UploadSettled w) = Some s' ->
    fetched w = Resolved response ->
    ok response = true ->
    body response = Json (JsonObject r) ->
    Js.ToBoolean (success r) = true ->
    exists file rest,
      fileInput_files (page s) = file :: rest
      /\ resultsBox_innerHTML (page s')
         = prepended 12
             (result_entry (clock_try w) (Js.ToString (text r))
                (Js.ToString (processing_time r)) (File.name file))
             (reparse (resultsBox_innerHTML (page s)))
      /\ statusIndicator_textContent (page s') = "Transcription complete"
      /\ uploads_in_flight s' = 0%nat.
Proof.
  intros s s' w response r Hs Hstep Hw Hok Hb Hsucc.
  destruct (reachable_consistent reparse s Hs) as (_ & Hle & Hup & _).
  destruct (uploads_in_flight s) as [|n] eqn:En;
    [unfold step in Hstep; rewrite En in Hstep; discriminate|].
  assert (n = 0%nat) by lia. subst n.
  destruct (Hup eq_refl) as (_ & _ & Hf).
  destruct (fileInput_files (page s)) as [|file rest] eqn:Ef;
    [now elim Hf|].
  rewrite (step_settled s 0 w En) in Hstep.
  inversion Hstep; subst s'. exists file, rest.
  split; [reflexivity|]. cbn [page uploads_in_flight].
  unfold settled_page, verdict. rewrite Hw, Hok, Hb, Hsucc, Ef.
  cbn -[deliver]. now repeat split.
Qed.

(** ** File selection *)

(** X10. After a selection the upload button is enabled exactly when the
    first selected file is accepted (audio/wav and at most 50MB),
    whatever the button and the status were before and whatever other
    files were selected with it; the status text starts with "Error:"
    exactly when it is not. The selection itself is left as it is. *)
Theorem selection_decides_button :
  forall (p : Page) (file : File.t) (rest : list File.t),
    fileInput_files p = file :: rest ->
    let p' := exec handleFileSelection p in
    uploadButton_disabled p' = negb (valid file)
    /\ Str.startsWith (statusIndicator_textContent p') "Error:"
       = negb (valid file)
    /\ fileInput_files p' = file :: rest.
Proof.
  intros p file rest Hf p'. subst p'.
  destruct (handleFileSelection_frame p) as (Hfiles & _).
  rewrite Hfiles, Hf. unfold exec.
  destruct (valid file) eqn:Hv.
  - rewrite (select_valid p file rest Hf Hv). now repeat split.
  - unfold valid in Hv.
    destruct (String.eqb (File.type file) "audio/wav") eqn:Ht.
    + cbn [andb] in Hv. apply N.leb_gt, N.ltb_lt in Hv.
      rewrite (select_too_large p file rest Hf Ht Hv). now repeat split.
    + rewrite (select_wrong_type p file rest Hf Ht). now repeat split.
Qed.

(** ** handleError *)

(** X11. [handleError] followed by [displayResults] on the object it
    returns does what the [catch] block of [handleUpload] does: the
    status text becomes "Error: " and the message, an error entry with
    the message is put in front of the results, and the error is logged
    to the console, here under "Error in <context>:"; the selection, the
    controls and the requests are left alone, and nothing is thrown. *)
Theorem handleError_shows_like_catch :
  forall (e : Js.Error) (context timestamp : string) (p : Page),
    let m := (report <- handleError e context ;;
              displayResults reparse timestamp (as_result report)) in
    let caught := (console_error "Upload error:" e ;;
                   modify (set_statusIndicator_textContent
                             ("Error: " ++ Js.message e)) ;;
                   displayResults reparse timestamp (failure e)) in
    outcome m p = Normal tt
    /\ exec m p
       = set_console
           (console p ++ [("Error in " ++ context ++ ":", Js.message e)])
           (exec caught p)
    /\ resultsBox_innerHTML (exec m p)
       = prepended 16 (error_entry timestamp (Js.message e))
           (reparse (resultsBox_innerHTML p))
    /\ statusIndicator_textContent (exec m p) = "Error: " ++ Js.message e.
Proof. intros e context timestamp p m caught. now repeat split. Qed.

End Further.

(** ** formatFileSize *)

Lemma prints_whole_below_1024 : forallb prints_whole (counts 1 1023) = true.
Proof. vm_compute. reflexivity. Qed.

Lemma whole_number_printed (n : Z) :
  1 <= n < 1024 ->
  Num.toString (Num.parseFloat (Num.fixed_layout (100 * n) 2))
  = Num.digits n.
Proof.
  intros Hn.
  pose proof (proj1 (forallb_forall prints_whole (counts 1 1023))
                prints_whole_below_1024 n) as H.
  apply String.eqb_eq, H. unfold counts.
  rewrite <- (Z2Nat.id n) by lia.
  apply in_map, in_seq. lia.
Qed.

Lemma whole_multiple_nearest_scaled (n : Z) (i : nat) :
  0 <= n -> (i <= 4)%nat ->
  Num.nearest_scaled
    (inject_Z (n * 1024 ^ Z.of_nat i) / inject_Z (1024 ^ Z.of_nat i))%Q 2
  = 100 * n.
Proof.
  intros Hn Hi.
  destruct i as [|[|[|[|[|i]]]]]; [| | | | |lia];
    match goal with
    | |- context [1024 ^ Z.of_nat ?k] =>
        let v := eval vm_compute in (1024 ^ Z.of_nat k) in
        change (1024 ^ Z.of_nat k) with v
    end;
    unfold Num.nearest_scaled, Qfloor;
    cbn -[Z.mul Z.add Z.div];
    match goal with
    | |- (?a + 1 * ?k) / ?d = ?q =>
        symmetry; apply (Z.div_unique (a + 1 * k) d q k); lia
    end.
Qed.

Lemma log1024_of_multiple (n : Z) (i : nat) :
  1 <= n < 1024 ->
  Z.log2 (n * 1024 ^ Z.of_nat i) / Z.log2 1024 = Z.of_nat i.
Proof.
  intros Hn. change (Z.log2 1024) with 10. change 1024 with (2 ^ 10).
  rewrite <- Z.pow_mul_r by lia.
  rewrite Z.log2_mul_pow2 by lia.
  assert (0 <= Z.log2 n < 10).
  { split; [apply Z.log2_nonneg|]. apply Z.log2_lt_pow2; lia. }
  symmetry. apply Z.div_unique with (r := Z.log2 n); lia.
Qed.

(** X12. For a size that is a whole number [n] of units, [n] from 1 to
    1023 and the unit one of Bytes, KB, MB, GB, [formatFileSize] returns
    [n] without decimals, a blank and the unit: 500 Bytes, 2 KB, 50 MB,
    1023 GB. *)
Theorem formatFileSize_whole_multiples :
  forall (n : Z) (i : nat),
    1 <= n < 1024 ->
    (i <= 3)%nat ->
    formatFileSize (Z.to_N (n * 1024 ^ Z.of_nat i))
    = Num.digits n ++ " " ++ nth i sizes "undefined".
Proof.
  intros n i Hn Hi. unfold formatFileSize.
  assert (Hpos : 0 < n * 1024 ^ Z.of_nat i)
    by (apply Z.mul_pos_pos; [lia | apply Z.pow_pos_nonneg; lia]).
  destruct (N.eqb_spec (Z.to_N (n * 1024 ^ Z.of_nat i)) 0) as [E|_];
    [lia|].
  rewrite Z2N.id by lia.
  rewrite (log1024_of_multiple n i Hn), Nat2Z.id.
  unfold Num.toFixed.
  rewrite whole_multiple_nearest_scaled by lia.
  now rewrite whole_number_printed.
Qed.

(** X13. The table of labels ends at GB: for a size of [n] whole
    tebibytes, [n] from 1 to 1023 (size = n * 1024^4), the index is 4,
    the table has no such entry, and [formatFileSize] returns [n], a
    blank and the word undefined. *)
Theorem formatFileSize_beyond_table :
  forall n : Z,
    1 <= n < 1024 ->
    formatFileSize (Z.to_N (n * 1024 ^ 4)) = Num.digits n ++ " undefined".
Proof.
  intros n Hn. unfold formatFileSize.
  change (1024 ^ 4) with (1024 ^ Z.of_nat 4).
  assert (Hpos : 0 < n * 1024 ^ Z.of_nat 4)
    by (apply Z.mul_pos_pos; [lia | apply Z.pow_pos_nonneg; lia]).
  destruct (N.eqb_spec (Z.to_N (n * 1024 ^ Z.of_nat 4)) 0) as [E|_];
    [lia|].
  rewrite Z2N.id by lia.
  rewrite (log1024_of_multiple n 4 Hn), Nat2Z.id.
  unfold Num.toFixed.
  rewrite whole_multiple_nearest_scaled by lia.
  now rewrite whole_number_printed.
Qed.

(* ================================================================== *)
(** * The further properties on examples *)
(* ================================================================== *)

Lemma reported_failure_leaves_status_witness :
  resultsBox_innerHTML
    (exec (handleUpload Example.same Sample.declined)
       (Example.selected Example.test_wav))
  = prepended 16 (error_entry "10:15:00 AM" "Audio too short") EmptyString
  /\ statusIndicator_textContent
       (exec (handleUpload Example.same Sample.declined)
          (Example.selected Example.test_wav))
     = "Uploading and processing..."
  /\ console
       (exec (handleUpload Example.same Sample.declined)
          (Example.selected Example.test_wav))
     = [].
Proof.
  apply (reported_failure_leaves_status Example.same Sample.declined
           (Example.selected Example.test_wav) Example.test_wav []
           (Build_Response 200 "OK" (Json (JsonObject Sample.too_short)))
           Sample.too_short);
    reflexivity.
Defined.

Lemma unusable_body_reported_as_error_witness :
  resultsBox_innerHTML
    (exec (handleUpload Example.same Sample.garbled)
       (Example.selected Example.test_wav))
  = prepended 16
      (error_entry "10:15:00 AM" "Unexpected end of JSON input")
      EmptyString
  /\ statusIndicator_textContent
       (exec (handleUpload Example.same Sample.garbled)
          (Example.selected Example.test_wav))
     = "Error: Unexpected end of JSON input"
  /\ exec (handleUpload Example.same Sample.garbled)
       (Example.selected Example.test_wav)
     = exec (handleUpload Example.same
               (with_fetched (Rejected "Unexpected end of JSON input")
                  Sample.garbled))
         (Example.selected Example.test_wav).
Proof.
  apply (unusable_body_reported_as_error Example.same Sample.garbled
           (Example.selected Example.test_wav) Example.test_wav []
           Sample.garbled_body "Unexpected end of JSON input").
  - reflexivity.
  - reflexivity.
  - reflexivity.
  - left. reflexivity.
Defined.

Lemma results_log_only_grows_witness :
  entry_prepended
    (resultsBox_innerHTML
       (page (Example.after
                (Sample.uploading ++ [UploadSettled Example.answered]))))
    (Example.same
       (resultsBox_innerHTML (page (Example.after Sample.uploading)))).
Proof.
  apply (results_log_only_grows Example.same
           (Example.after Sample.uploading)
           (Example.after
              (Sample.uploading ++ [UploadSettled Example.answered]))
           (UploadSettled Example.answered)).
  reflexivity.
Defined.

Lemma one_upload_at_a_time_witness :
  health_pending (Example.after Sample.uploading) = false
  /\ fileInput_files (page (Example.after Sample.uploading)) <> []
  /\ progressSection_display (page (Example.after Sample.uploading))
     = "block"
  /\ step Example.same (Example.after Sample.uploading) Click = None
  /\ forall files,
       step Example.same (Example.after Sample.uploading) (Change files)
       = None.
Proof.
  apply (proj2 (one_upload_at_a_time Example.same
                  (Example.after Sample.uploading)
                  (after_reachable Sample.uploading))).
  reflexivity.
Defined.

Lemma failed_health_check_sends_nothing_witness :
  network
    (page (Example.after
             [Example.unreachable_service; GlobalError "Script error."]))
  = network (page (Example.after [Example.unreachable_service]))
  /\ resultsBox_innerHTML
       (page (Example.after
                [Example.unreachable_service; GlobalError "Script error."]))
     = resultsBox_innerHTML
         (page (Example.after [Example.unreachable_service]))
  /\ fileInput_files
       (page (Example.after
                [Example.unreachable_service; GlobalError "Script error."]))
     = []
  /\ uploads_in_flight
       (Example.after
          [Example.unreachable_service; GlobalError "Script error."])
     = 0%nat.
Proof.
  apply (failed_health_check_sends_nothing Example.same
           (constructor Example.markup)
           (Example.after [Example.unreachable_service])
           (Rejected "Failed to fetch")
           (reachable_load Example.same Example.markup fresh_markup)
           I eq_refl
           [GlobalError "Script error."]).
  reflexivity.
Defined.

Lemma only_valid_files_are_sent_witness :
  exists files,
    network
      (page (Example.after
               (Sample.uploading ++ [UploadSettled Example.answered])))
    = sent [] files
    /\ Forall (fun f => valid f = true) files.
Proof.
  apply (only_valid_files_are_sent Example.same Example.markup
           (Sample.uploading ++ [UploadSettled Example.answered])
           (Example.after
              (Sample.uploading ++ [UploadSettled Example.answered]))).
  - split; reflexivity.
  - reflexivity.
Defined.

Lemma healthy_widget_uploads_witness :
  exists s,
    run Example.same (constructor Example.markup)
      [HealthSettled
         (Resolved (Build_Response 200 "OK" (Json JsonNull)));
       Change [Example.test_wav]; Click;
       UploadSettled Example.answered] = Some s
    /\ network (page s) = sent [] [Example.test_wav]
    /\ entry_prepended (resultsBox_innerHTML (page s))
         (Example.same EmptyString)
    /\ fileInput_files (page s) = []
    /\ fileInput_disabled (page s) = false
    /\ uploadButton_disabled (page s) = false
    /\ uploads_in_flight s = 0%nat.
Proof.
  apply (healthy_widget_uploads Example.same Example.markup
           Example.test_wav
           (Build_Response 200 "OK" (Json JsonNull)) Example.answered);
    reflexivity.
Defined.

Lemma answered_upload_names_selected_file_witness :
  exists file rest,
    fileInput_files (page (Example.after Sample.uploading)) = file :: rest
    /\ resultsBox_innerHTML
         (page (Example.after
                  (Sample.uploading ++ [UploadSettled Example.answered])))
       = prepended 12
           (result_entry "10:15:00 AM" "hello" "1.2" (File.name file))
           (Example.same
              (resultsBox_innerHTML
                 (page (Example.after Sample.uploading))))
    /\ statusIndicator_textContent
         (page (Example.after
                  (Sample.uploading ++ [UploadSettled Example.answered])))
       = "Transcription complete"
    /\ uploads_in_flight
         (Example.after
            (Sample.uploading ++ [UploadSettled Example.answered]))
       = 0%nat.
Proof.
  apply (answered_upload_names_selected_file Example.same
           (Example.after Sample.uploading)
           (Example.after
              (Sample.uploading ++ [UploadSettled Example.answered]))
           Example.answered
           (Build_Response 200 "OK" (Json (JsonObject Example.transcript)))
           Example.transcript).
  - apply after_reachable.
  - reflexivity.
  - reflexivity.
  - reflexivity.
  - reflexivity.
  - reflexivity.
Defined.

Lemma selection_decides_button_witness :
  uploadButton_disabled
    (exec handleFileSelection (Example.selected Example.mp3)) = true
  /\ Str.startsWith
       (statusIndicator_textContent
          (exec handleFileSelection (Example.selected Example.mp3)))
       "Error:" = true
  /\ fileInput_files
       (exec handleFileSelection (Example.selected Example.mp3))
     = [Example.mp3].
Proof.
  apply (selection_decides_button (Example.selected Example.mp3)
           Example.mp3 []).
  reflexivity.
Defined.

Lemma formatFileSize_whole_multiples_witness :
  formatFileSize 2048 = "2 KB".
Proof.
  apply (formatFileSize_whole_multiples 2 1); lia.
Defined.

Lemma formatFileSize_beyond_table_witness :
  formatFileSize 1099511627776 = "1 undefined".
Proof.
  apply (formatFileSize_beyond_table 1). lia.
Defined.
